(** * commoncode.filetype: a shallow embedding and its properties

    The module [src/commoncode/filetype.py] is a thin layer over [os.path],
    [os.access], [os.readlink], [os.scandir] and [datetime].  The operating
    system is a record of functions ([OS]); the Python functions are
    translated one by one over it, with Python's truthiness, its lazy
    [and]/[or]/[not] and its exceptions made explicit.  A path is the string
    of its bytes: a [bytes] object, or a [str] as the filesystem encoding
    encodes it (a [str] the encoding refuses is no path here).  A [float]
    is the number it holds, a mantissa times a power of two. *)

From Stdlib Require Import ZArith String Ascii List Bool Lia.
From stdpp Require Import base option gmap strings.
Import ListNotations.

Local Open Scope string_scope.
Local Open Scope Z_scope.

(** ** Python values and truthiness *)

(** The values the functions of the module return: [None], a [bool], an
    [int] or a [str]. *)
Inductive pyval : Type :=
| PyNone
| PyBool (b : bool)
| PyInt (z : Z)
| PyStr (s : string).

Definition str_truthy (s : string) : bool :=
  match s with
  | EmptyString => false
  | String _ _ => true
  end.

(** [bool(v)] *)
Definition truthy (v : pyval) : bool :=
  match v with
  | PyNone => false
  | PyBool b => b
  | PyInt z => negb (z =? 0)
  | PyStr s => str_truthy s
  end.

(** A [location] argument is [None] or a [str]. *)
Definition loc_val (location : option string) : pyval :=
  match location with
  | None => PyNone
  | Some p => PyStr p
  end.

(** ** Exceptions *)

Inductive exn : Type :=
| UnicodeEncodeError
| OSError
| TypeError
| KeyError
| ValueError
| OverflowError.

Inductive res (A : Type) : Type :=
| Ok (a : A)
| Raise (e : exn).
Arguments Ok {A} a.
Arguments Raise {A} e.

#[global] Instance res_ret : MRet res := fun A a => Ok a.
#[global] Instance res_bind : MBind res := fun A B k m =>
  match m with
  | Ok a => k a
  | Raise e => Raise e
  end.
#[global] Instance res_fmap : FMap res := fun A B f m =>
  match m with
  | Ok a => Ok (f a)
  | Raise e => Raise e
  end.

(** [a and b], [a or b], [not a]: the right operand is only looked at when
    the left one does not decide, and an exception of the left operand is
    the exception of the whole. *)
Definition py_and (a b : res pyval) : res pyval :=
  v ← a; if truthy v then b else Ok v.

Definition py_or (a b : res pyval) : res pyval :=
  v ← a; if truthy v then Ok v else b.

Definition py_not (a : res pyval) : res pyval :=
  v ← a; Ok (PyBool (negb (truthy v))).

(** The result is a true value (and not an exception). *)
Definition holds (r : res pyval) : bool :=
  match r with
  | Ok v => truthy v
  | Raise _ => false
  end.

(** ** The operating system *)

Inductive file_kind : Type :=
| S_IFREG | S_IFDIR | S_IFLNK | S_IFIFO | S_IFSOCK | S_IFCHR | S_IFBLK.

Definition file_kind_eqb (a b : file_kind) : bool :=
  match a, b with
  | S_IFREG, S_IFREG | S_IFDIR, S_IFDIR | S_IFLNK, S_IFLNK
  | S_IFIFO, S_IFIFO | S_IFSOCK, S_IFSOCK | S_IFCHR, S_IFCHR
  | S_IFBLK, S_IFBLK => true
  | _, _ => false
  end.

(** A Python [float] that is a number: [mant * 2 ^ expo].  A double has
    [Z.abs mant < 2 ^ 53] and [-1074 <= expo <= 971]. *)
Record float : Type := {
  mant : Z;
  expo : Z
}.

(** What [os.stat] and [os.lstat] report; [st_mtime] is in seconds. *)
Record stat_result : Type := {
  st_mode : file_kind;
  st_size : Z;
  st_mtime : float
}.

(** The platform: [on_posix] is the constant of [commoncode.system]; the
    other fields are the primitives of [os] and [os.path] the module calls.
    [os_lstat] and [os_stat] give [None] where the call fails, and
    [os_access] is the answer of the system call; the three are reached
    only with a path the interpreter can hand to the system, one without a
    null character. *)
Record OS : Type := {
  on_posix : bool;
  os_lstat : string -> option stat_result;
  os_stat : string -> option stat_result;
  os_readlink : string -> res string;
  os_access : string -> Z -> bool;
  os_scandir : string -> res (list string);
  path_join : string -> string -> string;
  path_dirname : string -> string
}.

Definition R_OK : Z := 4.
Definition W_OK : Z := 2.
Definition X_OK : Z := 1.

Definition mode_is (k : file_kind) (st : option stat_result) : bool :=
  match st with
  | Some s => file_kind_eqb (st_mode s) k
  | None => false
  end.

(** A [str] with an embedded null character: every function of [os] that
    takes a path refuses it with [ValueError]. *)
Fixpoint has_nul (s : string) : bool :=
  match s with
  | EmptyString => false
  | String c rest => Ascii.eqb c Ascii.zero || has_nul rest
  end.

Section FileType.

Variable os : OS.

(** *** [os.path]: none of the five predicates raises on a [str]; the
    [ValueError] of [os.stat] and [os.lstat] on a null character is caught
    with their [OSError] and answered [False] *)

Definition islink (p : string) : bool :=
  negb (has_nul p) && mode_is S_IFLNK (os_lstat os p).
Definition isfile (p : string) : bool :=
  negb (has_nul p) && mode_is S_IFREG (os_stat os p).
Definition isdir (p : string) : bool :=
  negb (has_nul p) && mode_is S_IFDIR (os_stat os p).
Definition exists_ (p : string) : bool :=
  negb (has_nul p)
  && match os_stat os p with Some _ => true | None => false end.
Definition lexists (p : string) : bool :=
  negb (has_nul p)
  && match os_lstat os p with Some _ => true | None => false end.

(** [os.stat(p)], as [os.path.getsize] and [os.path.getmtime] call it. *)
Definition stat (p : string) : res stat_result :=
  if has_nul p then Raise ValueError
  else match os_stat os p with
       | Some st => Ok st
       | None => Raise OSError
       end.

Definition getsize (p : string) : res Z := st ← stat p; Ok (st_size st).

Definition getmtime (p : string) : res float :=
  st ← stat p; Ok (st_mtime st).

(** [os.access(p, mode)]: [True] or [False], or [ValueError] on a null
    character. *)
Definition access (p : string) (mode : Z) : res pyval :=
  if has_nul p then Raise ValueError else Ok (PyBool (os_access os p mode)).

(** A path that is not on the filesystem: neither [lstat] nor [stat]
    finds it. *)
Definition nonexistent (p : string) : Prop :=
  os_lstat os p = None /\ os_stat os p = None.

(** [location and e(location)]: [e] only runs on a non-empty [str]. *)
Definition loc_and {A} (location : option string) (inj : pyval -> A)
    (e : string -> A) : A :=
  match location with
  | Some p => if str_truthy p then e p else inj (PyStr p)
  | None => inj PyNone
  end.

(** Passing [location] to a primitive that wants a [str]. *)
Definition with_str {A} (location : option string) (k : string -> res A)
    : res A :=
  match location with
  | Some p => k p
  | None => Raise TypeError
  end.

(** ** Type classifier *)

Definition is_link (location : option string) : pyval :=
  loc_and location id (fun p => PyBool (islink p)).

Definition get_link_target (location : option string) : res string :=
  let target := "" in
  if truthy (PyBool (on_posix os)) && truthy (is_link location) then
    with_str location (fun p =>
      match os_readlink os p with
      | Ok t => Ok t
      | Raise UnicodeEncodeError => Ok target
      | Raise e => Raise e
      end)
  else Ok target.

Definition is_broken_link (location : option string) : res pyval :=
  if truthy (PyBool (on_posix os)) && truthy (is_link location) then
    target ← get_link_target location;
    with_str location (fun p =>
      let target_loc := path_join os (path_dirname os p) target in
      py_and (Ok (PyStr target))
             (py_not (Ok (PyBool (exists_ target_loc)))))
  else Ok PyNone.

Definition is_file (location : option string) (follow_symlinks : bool)
    : res pyval :=
  let _is_file := loc_and location id (fun p => PyBool (isfile p)) in
  if follow_symlinks then Ok _is_file
  else py_and (py_and (Ok _is_file) (py_not (Ok (is_link location))))
              (py_not (is_broken_link location)).

Definition is_dir (location : option string) (follow_symlinks : bool)
    : res pyval :=
  let _is_dir :=
    loc_and location Ok (fun p =>
      py_and (Ok (PyBool (isdir p))) (py_not (is_file location false))) in
  if follow_symlinks then _is_dir
  else py_and (py_and _is_dir (py_not (Ok (is_link location))))
              (py_not (is_broken_link location)).

Definition is_regular (location : option string) : res pyval :=
  loc_and location Ok (fun _ =>
    py_or (is_file location false) (is_dir location false)).

Definition is_special (location : option string) : res pyval :=
  py_not (is_regular location).

(** The ordered map [TYPES]: checker, short code, long code. *)
Definition TYPES
    : list ((option string -> res pyval) * (string * string)) :=
  [ (fun l => Ok (is_link l), ("l", "link"));
    (fun l => is_file l false, ("f", "file"));
    (fun l => is_dir l false, ("d", "directory"));
    (is_special, ("s", "special")) ].

(** The [for] loop of [get_type] over the entries still to be tried. *)
Fixpoint get_type_loop
    (types : list ((option string -> res pyval) * (string * string)))
    (location : option string) (short : bool) : res pyval :=
  match types with
  | [] => Ok PyNone
  | (type_checker, (short_form, long_form)) :: rest =>
      tc ← type_checker location;
      if truthy tc
      then py_or (py_and (Ok (PyBool short)) (Ok (PyStr short_form)))
                 (Ok (PyStr long_form))
      else get_type_loop rest location short
  end.

Definition get_type (location : option string) (short : bool) : res pyval :=
  if truthy (loc_val location) then get_type_loop TYPES location short
  else Ok PyNone.

(** ** Permission checker *)

Definition is_readable (location : option string) : res pyval :=
  if truthy (loc_val location) then
    d ← is_dir location false;
    if truthy d
    then with_str location (fun p => access p (Z.lor R_OK X_OK))
    else with_str location (fun p => access p R_OK)
  else Ok PyNone.

Definition is_writable (location : option string) : res pyval :=
  if truthy (loc_val location) then
    d ← is_dir location false;
    if truthy d
    then with_str location (fun p =>
           access p (Z.lor (Z.lor R_OK W_OK) X_OK))
    else with_str location (fun p => access p (Z.lor R_OK W_OK))
  else Ok PyNone.

Definition is_executable (location : option string) : res pyval :=
  if truthy (loc_val location) then
    d ← is_dir location false;
    if truthy d
    then with_str location (fun p =>
           access p (Z.lor (Z.lor R_OK W_OK) X_OK))
    else with_str location (fun p => access p X_OK)
  else Ok PyNone.

Definition is_rwx (location : option string) : res pyval :=
  py_and (py_and (is_readable location) (is_writable location))
         (is_executable location).

End FileType.

(** ** [datetime]: a UTC timestamp as a calendar date, and its ISO format

    The calendar is the proleptic Gregorian one of [datetime], with the
    day numbering of the module (day 1 is 0001-01-01) and its conversion
    functions [_ymd2ord] and [_ord2ymd]. *)

Module Datetime.

Definition MINYEAR : Z := 1.
Definition MAXYEAR : Z := 9999.

Definition _DAYS_IN_MONTH : list Z :=
  [-1; 31; 28; 31; 30; 31; 30; 31; 31; 30; 31; 30; 31].
Definition _DAYS_BEFORE_MONTH : list Z :=
  [-1; 0; 31; 59; 90; 120; 151; 181; 212; 243; 273; 304; 334].

Definition table (t : list Z) (i : Z) : Z := nth (Z.to_nat i) t (-1).

Definition _is_leap (year : Z) : bool :=
  (year mod 4 =? 0) && (negb (year mod 100 =? 0) || (year mod 400 =? 0)).

Definition _days_before_year (year : Z) : Z :=
  let y := year - 1 in
  y * 365 + y / 4 - y / 100 + y / 400.

Definition _days_in_month (year month : Z) : Z :=
  if (month =? 2) && _is_leap year then 29 else table _DAYS_IN_MONTH month.

Definition _days_before_month (year month : Z) : Z :=
  table _DAYS_BEFORE_MONTH month
  + (if (month >? 2) && _is_leap year then 1 else 0).

Definition _ymd2ord (year month day : Z) : Z :=
  _days_before_year year + _days_before_month year month + day.

Definition _DI400Y : Z := 146097.
Definition _DI100Y : Z := 36524.
Definition _DI4Y : Z := 1461.

Definition _ord2ymd (n : Z) : Z * Z * Z :=
  let n := n - 1 in
  let n400 := n / _DI400Y in
  let n := n mod _DI400Y in
  let year := n400 * 400 + 1 in
  let n100 := n / _DI100Y in
  let n := n mod _DI100Y in
  let n4 := n / _DI4Y in
  let n := n mod _DI4Y in
  let n1 := n / 365 in
  let n := n mod 365 in
  let year := year + n100 * 100 + n4 * 4 + n1 in
  if (n1 =? 4) || (n100 =? 4) then (year - 1, 12, 31)
  else
    let leapyear := (n1 =? 3) && (negb (n4 =? 24) || (n100 =? 3)) in
    let month := Z.shiftr (n + 50) 5 in
    let preceding :=
      table _DAYS_BEFORE_MONTH month
      + (if (month >? 2) && leapyear then 1 else 0) in
    if preceding >? n then
      let month := month - 1 in
      let preceding :=
        preceding - (table _DAYS_IN_MONTH month
                     + (if (month =? 2) && leapyear then 1 else 0)) in
      (year, month, n - preceding + 1)
    else (year, month, n - preceding + 1).

(** An aware [datetime] in UTC. *)
Record datetime : Type := {
  year : Z; month : Z; day : Z;
  hour : Z; minute : Z; second : Z; microsecond : Z
}.

(** Ordinal of 1970-01-01. *)
Definition EPOCH_ORDINAL : Z := 719163.

(** [a / b] rounded to the nearest integer, a tie to the even one; [b]
    is positive. *)
Definition rhe_div (a b : Z) : Z :=
  let q := a / b in
  let r := a mod b in
  if 2 * r <? b then q
  else if b <? 2 * r then q + 1
  else if Z.even q then q else q + 1.

(** The double nearest to [m * 2 ^ e], a tie to the even mantissa: what
    an operation on doubles stores of its exact result (no overflow in the
    ranges used here). *)
Definition round_to_float (m e : Z) : float :=
  let bits := if m =? 0 then 0 else Z.log2 (Z.abs m) + 1 in
  if bits <=? 53 then {| mant := m; expo := e |}
  else
    let s := bits - 53 in
    {| mant := rhe_div m (2 ^ s); expo := e + s |}.

(** [x * k] on doubles, [k] a whole number. *)
Definition float_mul (x : float) (k : Z) : float :=
  round_to_float (mant x * k) (expo x).

(** [modf(d)]: the fractional and the integral part, both with the sign
    of [d]. *)
Definition modf (d : float) : float * Z :=
  if 0 <=? expo d then ({| mant := 0; expo := 0 |}, mant d * 2 ^ expo d)
  else ({| mant := Z.rem (mant d) (2 ^ (- expo d)); expo := expo d |},
        Z.quot (mant d) (2 ^ (- expo d))).

(** [pytime_round(x, _PyTime_ROUND_HALF_EVEN)] *)
Definition pytime_round_half_even (x : float) : Z :=
  if 0 <=? expo x then mant x * 2 ^ expo x
  else rhe_div (mant x) (2 ^ (- expo x)).

(** [_PyTime_ObjectToTimeval(d, &sec, &us, _PyTime_ROUND_HALF_EVEN)] on a
    float: seconds and microseconds, the microseconds rounded to the
    nearest; [OverflowError] when the seconds are outside the range of
    [time_t] (64 bits) as [_Py_InIntegralTypeRange] tests it on doubles,
    both ends included. *)
Definition pytime_double_to_denominator (d : float) : res (Z * Z) :=
  let denominator := 1000000 in
  let '(floatpart, intpart) := modf d in
  let floatpart := float_mul floatpart denominator in
  let floatpart := pytime_round_half_even floatpart in
  let '(floatpart, intpart) :=
    if denominator <=? floatpart then (floatpart - denominator, intpart + 1)
    else if floatpart <? 0 then (floatpart + denominator, intpart - 1)
    else (floatpart, intpart) in
  if (- 2 ^ 63 <=? intpart) && (intpart <=? 2 ^ 63)
  then Ok (intpart, floatpart)
  else Raise OverflowError.

(** [datetime.fromtimestamp(timestamp, tz=timezone.utc)] on a float, as
    CPython 3.11 does it on a 64-bit Linux: the timestamp is rounded to a
    microsecond, [gmtime] fails with [OSError] when the year does not fit
    an [int], and a year outside [MINYEAR..MAXYEAR] is a [ValueError]. *)
Definition fromtimestamp_utc (timestamp : float) : res datetime :=
  '(timet, us) ← pytime_double_to_denominator timestamp;
  let days := timet / 86400 in
  let rem := timet mod 86400 in
  let '(y, m, d) := _ord2ymd (EPOCH_ORDINAL + days) in
  if negb ((- 2 ^ 31 <=? y - 1900) && (y - 1900 <? 2 ^ 31))
  then Raise OSError
  else if (MINYEAR <=? y) && (y <=? MAXYEAR) then
    Ok {| year := y; month := m; day := d;
          hour := rem / 3600; minute := rem mod 3600 / 60;
          second := rem mod 60; microsecond := us |}
  else Raise ValueError.

Definition digit (d : Z) : ascii := ascii_of_nat (48 + Z.to_nat d).

(** ["%02d"], ["%04d"] and ["%06d"] on the ranges a [datetime] holds. *)
Definition fmt02 (n : Z) (k : string) : string :=
  String (digit (n / 10 mod 10)) (String (digit (n mod 10)) k).
Definition fmt04 (n : Z) (k : string) : string :=
  fmt02 (n / 100) (fmt02 (n mod 100) k).
Definition fmt06 (n : Z) (k : string) : string :=
  fmt02 (n / 10000) (fmt04 (n mod 10000) k).

(** [datetime.isoformat(dt)]: [YYYY-MM-DDTHH:MM:SS[.ffffff]+00:00]. *)
Definition isoformat (dt : datetime) : string :=
  fmt04 (year dt) (String "-" (fmt02 (month dt) (String "-"
    (fmt02 (day dt) (String "T"
      (fmt02 (hour dt) (String ":" (fmt02 (minute dt) (String ":"
        (fmt02 (second dt)
          ((if microsecond dt =? 0 then ""
            else String "." (fmt06 (microsecond dt) ""))
           ++ "+00:00"))))))))))).

End Datetime.

Section LastModified.

Variable os : OS.

Definition get_last_modified_date (location : option string) : res pyval :=
  let yyyymmdd := "" in
  f ← is_file os location false;
  if truthy f then
    mtime ← with_str location (getmtime os);
    dt ← Datetime.fromtimestamp_utc mtime;
    let utc_date := Datetime.isoformat dt in
    Ok (PyStr (substring 0 10 utc_date))
  else Ok (PyStr yyyymmdd).

End LastModified.

(** ** Recursive aggregator *)

(** The process-wide cache: one integer per argument pair
    [(location, counting_function)]. *)
Abbreviation memos_t := (gmap (option string * string) Z).

(** A computation that reads and extends the cache and returns or raises;
    [None] when the recursion budget of the model is used up. *)
Definition M (A : Type) : Type := memos_t -> option (res A * memos_t).

Definition m_ret {A} (a : A) : M A := fun memos => Some (Ok a, memos).

Definition m_lift {A} (r : res A) : M A := fun memos => Some (r, memos).

Definition m_bind {A B} (m : M A) (k : A -> M B) : M B := fun memos =>
  match m memos with
  | Some (Ok a, memos') => k a memos'
  | Some (Raise e, memos') => Some (Raise e, memos')
  | None => None
  end.

Notation "'let*' x := m 'in' k" := (m_bind m (fun x => k))
  (at level 10, x name, m at level 100, k at level 200).

(** Modelled from the spec: the decorator [memoize] of
    [commoncode.functional], which is not among the sources.  Results are
    cached by the argument pair; a call whose pair is cached returns the
    cached value without running the function, and a value the function
    returns is stored before it is handed back. *)
Definition memoize (fun_ : option string -> string -> M Z)
    : option string -> string -> M Z :=
  fun location counting_function memos =>
    match memos !! (location, counting_function) with
    | Some v => Some (Ok v, memos)
    | None =>
        match fun_ location counting_function memos with
        | Some (Ok v, memos') =>
            Some (Ok v, <[(location, counting_function) := v]> memos')
        | other => other
        end
    end.

(** [sum(call(name) for name in names)], the calls made in order. *)
Fixpoint sum_gen (call : string -> M Z) (names : list string) (acc : Z)
    : M Z :=
  match names with
  | [] => m_ret acc
  | name :: rest => let* v := call name in sum_gen call rest (acc + v)
  end.

Section Counter.

Variable os : OS.

(** The registry [counting_functions]. *)
Definition counting_functions (key : string)
    : option (option string -> res Z) :=
  if String.eqb key "file_count" then Some (fun _ => Ok 1)
  else if String.eqb key "file_size" then
    Some (fun l => with_str l (getsize os))
  else None.

(** The body of [counter]; [counter] inside it is the decorated
    function. *)
Definition counter_body (counter : option string -> string -> M Z)
    (location : option string) (counting_function : string) : M Z :=
  let* c := m_lift (py_not (py_or (is_file os location false)
                                  (is_dir os location false))) in
  if truthy c then m_ret 0
  else
    let count := 0 in
    let* f := m_lift (is_file os location false) in
    if truthy f then
      match counting_functions counting_function with
      | Some count_fun => m_lift (count_fun location)
      | None => m_lift (Raise KeyError)
      end
    else
      let* d := m_lift (is_dir os location false) in
      if truthy d then
        let* names := m_lift (with_str location (os_scandir os)) in
        let* p := m_lift (with_str location Ok) in
        let* s := sum_gen (fun name =>
                    counter (Some (path_join os p name)) counting_function)
                    names 0 in
        m_ret (count + s)
      else m_ret count.

(** [counter], with [fuel] bounding the depth of the recursion. *)
Fixpoint counter (fuel : nat) : option string -> string -> M Z :=
  match fuel with
  | O => fun _ _ _ => None
  | S n => memoize (counter_body (counter n))
  end.

Definition get_file_count (fuel : nat) (location : option string) : M Z :=
  counter fuel location "file_count".

Definition get_size (fuel : nat) (location : option string) : M Z :=
  counter fuel location "file_size".

End Counter.

(** * Vocabulary of the properties *)

(** ** Classification of a path *)

Fixpoint count_true (bs : list bool) : nat :=
  match bs with
  | [] => 0%nat
  | b :: rest => ((if b then 1 else 0) + count_true rest)%nat
  end.

(** The answers of the four classification predicates, in the order
    link, file, directory, special. *)
Definition kinds (os : OS) (location : option string) : list bool :=
  [ truthy (is_link os location);
    holds (is_file os location false);
    holds (is_dir os location false);
    holds (is_special os location) ].

(** [v is False] *)
Definition is_False (v : pyval) : bool :=
  match v with
  | PyBool false => true
  | _ => false
  end.

(** [os.access(p, mode)] returns [True]: the platform grants the mode. *)
Definition granted (os : OS) (p : string) (mode : Z) : bool :=
  holds (access os p mode).

(** ** Recursive aggregation *)

Inductive Metric : Type := FileCount | FileSize.

Definition metric_key (m : Metric) : string :=
  match m with
  | FileCount => "file_count"
  | FileSize => "file_size"
  end.

Definition total (vs : list Z) : Z := fold_right Z.add 0 vs.

Section Aggregator.

Variable os : OS.

(** What a single file contributes: 1, or its length in bytes. *)
Definition contribution (m : Metric) (p : string) : res Z :=
  match m with
  | FileCount => Ok 1
  | FileSize => getsize os p
  end.

#[local] Set Warnings "-register-all".

(** The aggregate of a path as the specification words it: the
    contribution of a file, the sum of the aggregates of the children of a
    directory, and 0 for anything else. *)
Inductive aggregate (m : Metric) : option string -> Z -> Prop :=
| aggregate_file p v :
    holds (is_file os (Some p) false) = true ->
    contribution m p = Ok v ->
    aggregate m (Some p) v
| aggregate_dir p names vs :
    holds (is_dir os (Some p) false) = true ->
    os_scandir os p = Ok names ->
    Forall2 (fun name v => aggregate m (Some (path_join os p name)) v)
            names vs ->
    aggregate m (Some p) (total vs)
| aggregate_other location :
    holds (is_file os location false) = false ->
    holds (is_dir os location false) = false ->
    aggregate m location 0.

#[local] Set Warnings "register-all".

(** The tree below [location] can be listed, and is at most [n]
    directories deep. *)
Inductive walkable : option string -> nat -> Prop :=
| walkable_leaf location n :
    holds (is_dir os location false) = false ->
    walkable location n
| walkable_dir p names n :
    holds (is_dir os (Some p) false) = true ->
    os_scandir os p = Ok names ->
    (forall name, In name names ->
       walkable (Some (path_join os p name)) n) ->
    walkable (Some p) (S n).

(** Every cached value is the aggregate of its key on the filesystem as it
    is now. *)
Definition cache_valid (memos : memos_t) : Prop :=
  forall location m v,
    memos !! (location, metric_key m) = Some v -> aggregate m location v.

(** Called on any valid cache, [counter] returns [v] and leaves a valid
    cache. *)
Definition returns (fuel : nat) (location : option string) (m : Metric)
    (v : Z) : Prop :=
  forall memos, cache_valid memos ->
    exists memos',
      counter os fuel location (metric_key m) memos = Some (Ok v, memos')
      /\ cache_valid memos'.

End Aggregator.

(** *** Calendar dates of timestamps *)

Module DatetimeSpec.
Import Datetime.

(** A timestamp in whole microseconds, as [datetime.fromtimestamp] rounds
    its float: the integral part, and the fractional part in microseconds
    rounded to the nearest. *)
Definition rounded_us (t : float) : Z :=
  let '(floatpart, intpart) := modf t in
  intpart * 1000000 + pytime_round_half_even (float_mul floatpart 1000000).

(** The whole microseconds a timestamp has reached, and the whole
    microseconds that cover it. *)
Definition floor_us (t : float) : Z :=
  if 0 <=? expo t then mant t * 2 ^ expo t * 1000000
  else (mant t * 1000000) / 2 ^ (- expo t).

Definition ceil_us (t : float) : Z :=
  if 0 <=? expo t then mant t * 2 ^ expo t * 1000000
  else - ((- (mant t * 1000000)) / 2 ^ (- expo t)).

(** Whole days between the epoch and a timestamp in microseconds. *)
Definition utc_days (t_us : Z) : Z := t_us / 86400000000.

(** The UTC calendar date of a timestamp: year, month, day. *)
Definition utc_date (t_us : Z) : Z * Z * Z :=
  _ord2ymd (EPOCH_ORDINAL + utc_days t_us).

(** [YYYY-MM-DD] *)
Definition date_string (y m d : Z) : string :=
  fmt04 y (String "-" (fmt02 m (String "-" (fmt02 d "")))).

(** The month and the day of the month of the [n]-th day (from 0) of a
    year: the second half of [_ord2ymd]. *)
Definition month_day (leapyear : bool) (n : Z) : Z * Z :=
  let month := Z.shiftr (n + 50) 5 in
  let preceding :=
    table _DAYS_BEFORE_MONTH month
    + (if (month >? 2) && leapyear then 1 else 0) in
  if preceding >? n then
    let month := month - 1 in
    let preceding :=
      preceding - (table _DAYS_IN_MONTH month
                   + (if (month =? 2) && leapyear then 1 else 0)) in
    (month, n - preceding + 1)
  else (month, n - preceding + 1).

(** [month_day] gives a month, a day of that month, and the day of the
    year it started from. *)
Definition month_day_ok (leapyear : bool) (n : Z) : bool :=
  let '(m, d) := month_day leapyear n in
  (1 <=? m) && (m <=? 12) && (1 <=? d)
  && (d <=? (if (m =? 2) && leapyear then 29 else table _DAYS_IN_MONTH m))
  && (table _DAYS_BEFORE_MONTH m
      + (if (m >? 2) && leapyear then 1 else 0) + d =? n + 1).

Fixpoint all_from (check : Z -> bool) (start : Z) (count : nat) : bool :=
  match count with
  | O => true
  | S k => check start && all_from check (start + 1) k
  end.

End DatetimeSpec.

(** ** A POSIX example filesystem

    [posixpath.join] and [posixpath.dirname], and a small tree used to run
    the functions:
<<
    /srv/root/a.txt          5 bytes
    /srv/root/sub/b.txt      3 bytes
    /srv/link     -> root/a.txt
    /srv/dangling -> gone
    /srv/odd      -> root    (its target cannot be read back: encoding)
    /srv/fifo                a named pipe
    /srv/rw                  a directory with access rw-
    /srv/rx                  a directory with access r-x
    /srv/future.bin          last modified 10000-01-01T00:00:00Z
    /srv/midnight.bin        last modified 2000-02-29T23:59:59.9999999Z
>> *)

Module Demo.

Definition slash : ascii := "/"%char.

Definition startswith_sep (s : string) : bool :=
  match s with
  | String c _ => Ascii.eqb c slash
  | EmptyString => false
  end.

Fixpoint endswith_sep (s : string) : bool :=
  match s with
  | EmptyString => false
  | String c EmptyString => Ascii.eqb c slash
  | String _ rest => endswith_sep rest
  end.

Definition posix_join (a b : string) : string :=
  if startswith_sep b then b
  else if negb (str_truthy a) || endswith_sep a then a ++ b
  else a ++ "/" ++ b.

(** Drop the characters after the last separator of a reversed path. *)
Fixpoint drop_tail (r : list ascii) : list ascii :=
  match r with
  | [] => []
  | c :: rest => if Ascii.eqb c slash then r else drop_tail rest
  end.

Fixpoint strip_sep (r : list ascii) : list ascii :=
  match r with
  | c :: rest => if Ascii.eqb c slash then strip_sep rest else r
  | [] => []
  end.

Definition posix_dirname (p : string) : string :=
  let head := drop_tail (rev (list_ascii_of_string p)) in
  if forallb (Ascii.eqb slash) head then string_of_list_ascii (rev head)
  else string_of_list_ascii (rev (strip_sep head)).

(** A whole number of seconds as a float. *)
Definition seconds (n : Z) : float := {| mant := n; expo := 0 |}.

(** The double nearest to 951868799.9999999, the last one before
    2000-03-01T00:00:00Z: that midnight less [2 ^ -23] seconds. *)
Definition before_midnight : float :=
  {| mant := 951868800 * 2 ^ 23 - 1; expo := -23 |}.

(** A path with a null character in it. *)
Definition null_path : string := "/srv/root/a" ++ String "000"%char ".txt".

Inductive node : Type :=
| File (size : Z) (mtime : float) (perms : Z)
| Dir (entries : list string) (perms : Z)
| Symlink (target : string) (decodable : bool)
| Fifo (perms : Z).

Definition tree : list (string * node) :=
  [ ("/srv", Dir ["root"; "link"; "dangling"; "odd"; "fifo"; "rw"; "rx";
                  "future.bin"; "midnight.bin"] 7);
    ("/srv/root", Dir ["a.txt"; "sub"] 7);
    ("/srv/root/a.txt", File 5 (seconds 1289918700) 6);
    ("/srv/root/sub", Dir ["b.txt"] 7);
    ("/srv/root/sub/b.txt", File 3 (seconds 951782400) 4);
    ("/srv/link", Symlink "root/a.txt" true);
    ("/srv/dangling", Symlink "gone" true);
    ("/srv/odd", Symlink "root" false);
    ("/srv/fifo", Fifo 6);
    ("/srv/rw", Dir [] 6);
    ("/srv/rx", Dir [] 5);
    ("/srv/future.bin", File 1 (seconds 253402300800) 6);
    ("/srv/midnight.bin", File 1 before_midnight 6) ].

Fixpoint find_node (t : list (string * node)) (p : string) : option node :=
  match t with
  | [] => None
  | (q, n) :: rest => if String.eqb p q then Some n else find_node rest p
  end.

(** The node a path leads to, links followed (at most [hops] of them). *)
Fixpoint resolve (hops : nat) (p : string) : option node :=
  match find_node tree p with
  | Some (Symlink target _) =>
      match hops with
      | O => None
      | S h => resolve h (posix_join (posix_dirname p) target)
      end
  | other => other
  end.

Definition stat_of (n : node) : stat_result :=
  match n with
  | File size mtime _ =>
      {| st_mode := S_IFREG; st_size := size; st_mtime := mtime |}
  | Dir _ _ =>
      {| st_mode := S_IFDIR; st_size := 4096; st_mtime := seconds 0 |}
  | Symlink target _ =>
      {| st_mode := S_IFLNK; st_size := Z.of_nat (String.length target);
         st_mtime := seconds 0 |}
  | Fifo _ => {| st_mode := S_IFIFO; st_size := 0; st_mtime := seconds 0 |}
  end.

Definition perms_of (n : node) : Z :=
  match n with
  | File _ _ perms | Dir _ perms | Fifo perms => perms
  | Symlink _ _ => 7
  end.

Definition filesystem (posix : bool) : OS :=
  {| on_posix := posix;
     os_lstat := fun p => stat_of <$> find_node tree p;
     os_stat := fun p => stat_of <$> resolve 8 p;
     os_readlink := fun p =>
       match find_node tree p with
       | Some (Symlink target true) => Ok target
       | Some (Symlink _ false) => Raise UnicodeEncodeError
       | _ => Raise OSError
       end;
     os_access := fun p mode =>
       match resolve 8 p with
       | Some n => Z.land (perms_of n) mode =? mode
       | None => false
       end;
     os_scandir := fun p =>
       match resolve 8 p with
       | Some (Dir entries _) => Ok entries
       | _ => Raise OSError
       end;
     path_join := posix_join;
     path_dirname := posix_dirname |}.

Definition posix : OS := filesystem true.

End Demo.

(** ** Two failing platforms

    The example filesystem behind an [os.readlink] that fails with
    [OSError] on every path, and behind an [os.scandir] that does. *)

Module DemoFailing.

Definition with_readlink (os : OS) (readlink : string -> res string) : OS :=
  {| on_posix := on_posix os;
     os_lstat := os_lstat os;
     os_stat := os_stat os;
     os_readlink := readlink;
     os_access := os_access os;
     os_scandir := os_scandir os;
     path_join := path_join os;
     path_dirname := path_dirname os |}.

Definition with_scandir (os : OS) (scandir : string -> res (list string))
    : OS :=
  {| on_posix := on_posix os;
     os_lstat := os_lstat os;
     os_stat := os_stat os;
     os_readlink := os_readlink os;
     os_access := os_access os;
     os_scandir := scandir;
     path_join := path_join os;
     path_dirname := path_dirname os |}.

Definition unreadable_links : OS :=
  with_readlink Demo.posix (fun _ => Raise OSError).

Definition unlistable : OS :=
  with_scandir Demo.posix (fun _ => Raise OSError).

End DemoFailing.

(** * Properties *)

(** ** What the classifier computes *)

Section ClassifierFacts.

Variable os : OS.

Lemma isdir_not_isfile (p : string) : isdir os p = true -> isfile os p = false.
Proof.
  unfold isdir, isfile, mode_is.
  destruct (has_nul p); [done|]. cbn [negb andb].
  destruct (os_stat os p) as [st|]; [|done].
  by destruct (st_mode st).
Qed.

Lemma isdir_no_nul (p : string) : isdir os p = true -> has_nul p = false.
Proof. unfold isdir. by destruct (has_nul p). Qed.

Lemma isfile_no_nul (p : string) : isfile os p = true -> has_nul p = false.
Proof. unfold isfile. by destruct (has_nul p). Qed.

Lemma isfile_stat (p : string) :
  isfile os p = true -> exists st, os_stat os p = Some st /\ stat os p = Ok st.
Proof.
  unfold isfile, stat, mode_is. destruct (has_nul p); [done|].
  destruct (os_stat os p) as [st|]; [|done]. by exists st.
Qed.

Lemma access_value (p : string) (mode : Z) :
  has_nul p = false -> access os p mode = Ok (PyBool (os_access os p mode)).
Proof. intros H. unfold access. by rewrite H. Qed.

Lemma is_broken_link_of_non_link (location : option string) :
  truthy (is_link os location) = false ->
  is_broken_link os location = Ok PyNone.
Proof.
  intros Hl. unfold is_broken_link. rewrite Hl.
  by rewrite andb_false_r.
Qed.

Lemma is_broken_link_off_posix (location : option string) :
  on_posix os = false -> is_broken_link os location = Ok PyNone.
Proof. intros Hp. unfold is_broken_link. by rewrite Hp. Qed.

(** Without following links, a file is what [os.path.isfile] accepts and
    [os.path.islink] does not; the call of [is_broken_link] in [is_file]
    never reaches [os.readlink]. *)
Lemma is_file_value (location : option string) :
  is_file os location false
  = Ok (loc_and location id
          (fun p => PyBool (isfile os p && negb (islink os p)))).
Proof.
  unfold is_file.
  destruct location as [p|]; [|done]. cbn [loc_and].
  destruct (str_truthy p) eqn:Hp; [|by destruct p].
  destruct (isfile os p) eqn:Hf; [|done].
  destruct (islink os p) eqn:Hk.
  - cbn. unfold is_link. cbn. by rewrite Hp, Hk.
  - assert (Hn : truthy (is_link os (Some p)) = false).
    { unfold is_link. cbn. by rewrite Hp, Hk. }
    rewrite (is_broken_link_of_non_link _ Hn).
    unfold is_link. cbn. by rewrite Hp, Hk.
Qed.

Lemma is_dir_value (location : option string) :
  is_dir os location false
  = Ok (loc_and location id
          (fun p => PyBool (isdir os p && negb (islink os p)))).
Proof.
  unfold is_dir. rewrite is_file_value.
  destruct location as [p|]; [|done]. cbn [loc_and].
  destruct (str_truthy p) eqn:Hp; [|by destruct p].
  destruct (isdir os p) eqn:Hd; [|done].
  rewrite (isdir_not_isfile _ Hd).
  destruct (islink os p) eqn:Hk.
  - cbn. unfold is_link. cbn. by rewrite Hp, Hk.
  - assert (Hn : truthy (is_link os (Some p)) = false).
    { unfold is_link. cbn. by rewrite Hp, Hk. }
    rewrite (is_broken_link_of_non_link _ Hn).
    unfold is_link. cbn. by rewrite Hp, Hk.
Qed.

Lemma is_regular_value (location : option string) :
  is_regular os location
  = Ok (loc_and location id (fun p =>
          PyBool (isfile os p && negb (islink os p)
                  || isdir os p && negb (islink os p)))).
Proof.
  unfold is_regular. rewrite is_file_value, is_dir_value.
  destruct location as [p|]; [|done]. cbn [loc_and].
  destruct (str_truthy p) eqn:Hp; [|done].
  by destruct (isfile os p && negb (islink os p)).
Qed.

Lemma is_special_value (location : option string) :
  is_special os location
  = Ok (PyBool (negb (truthy (loc_and location id (fun p =>
          PyBool (isfile os p && negb (islink os p)
                  || isdir os p && negb (islink os p))))))).
Proof. unfold is_special. by rewrite is_regular_value. Qed.

(** The three non-follow predicates as booleans. *)
Lemma holds_is_file (p : string) :
  holds (is_file os (Some p) false)
  = str_truthy p && (isfile os p && negb (islink os p)).
Proof. rewrite is_file_value. by destruct p. Qed.

Lemma holds_is_dir (p : string) :
  holds (is_dir os (Some p) false)
  = str_truthy p && (isdir os p && negb (islink os p)).
Proof. rewrite is_dir_value. by destruct p. Qed.

Lemma holds_is_special (p : string) :
  holds (is_special os (Some p))
  = negb (holds (is_file os (Some p) false)
          || holds (is_dir os (Some p) false)).
Proof.
  rewrite is_special_value, holds_is_file, holds_is_dir.
  by destruct p.
Qed.

Lemma holds_is_dir_no_nul (p : string) :
  holds (is_dir os (Some p) false) = true -> has_nul p = false.
Proof.
  rewrite holds_is_dir. intros H. apply isdir_no_nul.
  by apply andb_true_iff in H as [_ [? _]%andb_true_iff].
Qed.

Lemma holds_is_file_no_nul (p : string) :
  holds (is_file os (Some p) false) = true -> has_nul p = false.
Proof.
  rewrite holds_is_file. intros H. apply isfile_no_nul.
  by apply andb_true_iff in H as [_ [? _]%andb_true_iff].
Qed.

Lemma holds_file_not_dir (location : option string) :
  holds (is_file os location false) = true ->
  holds (is_dir os location false) = false.
Proof.
  destruct location as [p|]; [|done].
  rewrite holds_is_file, holds_is_dir.
  destruct (str_truthy p); [|done]. cbn.
  destruct (isdir os p) eqn:Hd; [|done].
  by rewrite (isdir_not_isfile _ Hd).
Qed.

(** [get_type] on a non-empty path, by the first checker that accepts. *)
Lemma get_type_value (p : string) (short : bool) :
  str_truthy p = true ->
  get_type os (Some p) short
  = Ok (PyStr
      (if islink os p then (if short then "l" else "link")
       else if holds (is_file os (Some p) false)
            then (if short then "f" else "file")
       else if holds (is_dir os (Some p) false)
            then (if short then "d" else "directory")
       else (if short then "s" else "special"))).
Proof.
  intros Hp. unfold get_type. cbn [loc_val truthy]. rewrite Hp.
  unfold TYPES, get_type_loop.
  rewrite holds_is_file, holds_is_dir.
  rewrite is_special_value, is_file_value, is_dir_value.
  unfold is_link. cbn. rewrite Hp. cbn.
  destruct (islink os p); cbn; [by destruct short|].
  rewrite !andb_true_r.
  destruct (isfile os p); cbn; [by destruct short|].
  destruct (isdir os p); cbn; by destruct short.
Qed.

End ClassifierFacts.

(** ** Classification and permissions *)

Section Classification.

Variable os : OS.

Lemma nonexistent_predicates (p : string) :
  nonexistent os p ->
  islink os p = false /\ isfile os p = false /\ isdir os p = false.
Proof.
  intros [Hl Hs]. unfold islink, isfile, isdir.
  by rewrite Hl, Hs, !andb_false_r.
Qed.

Lemma get_type_empty (location : option string) (short : bool) :
  truthy (loc_val location) = false -> get_type os location short = Ok PyNone.
Proof. intros H. unfold get_type. by rewrite H. Qed.

(** C1, as the code behaves: for a non-empty path that is not on the
    filesystem, [get_type] does not return [None]; the last checker,
    [is_special], accepts the path and the answer is the code of
    "special", short or long. *)
Theorem get_type_nonexistent (p : string) :
  str_truthy p = true ->
  nonexistent os p ->
  get_type os (Some p) true = Ok (PyStr "s")
  /\ get_type os (Some p) false = Ok (PyStr "special").
Proof.
  intros Hp Hn.
  destruct (nonexistent_predicates _ Hn) as (Hl & Hf & Hd).
  rewrite !get_type_value by done.
  by rewrite holds_is_file, holds_is_dir, Hl, Hf, Hd, Hp.
Qed.

(** C2, amended: for a path that exists, exactly one of [is_file],
    [is_dir] and [is_special] holds; [is_link] implies [is_special] and
    excludes [is_file] and [is_dir], so that exactly one of the four holds
    when the path is not a link.  For a path that does not exist,
    [is_link], [is_file] and [is_dir] are false. *)
Theorem partition_amended (p : string) :
  (lexists os p = true ->
     count_true [ holds (is_file os (Some p) false);
                  holds (is_dir os (Some p) false);
                  holds (is_special os (Some p)) ] = 1%nat
     /\ (truthy (is_link os (Some p)) = true ->
           holds (is_special os (Some p)) = true
           /\ holds (is_file os (Some p) false) = false
           /\ holds (is_dir os (Some p) false) = false)
     /\ (truthy (is_link os (Some p)) = false ->
           count_true (kinds os (Some p)) = 1%nat))
  /\ (nonexistent os p ->
        truthy (is_link os (Some p)) = false
        /\ holds (is_file os (Some p) false) = false
        /\ holds (is_dir os (Some p) false) = false).
Proof.
  split.
  - intros _. unfold kinds.
    rewrite holds_is_special, holds_is_file, holds_is_dir.
    unfold is_link. cbn [loc_and id truthy count_true].
    destruct (str_truthy p) eqn:Hp; [|by destruct p].
    cbn [truthy andb].
    destruct (isdir os p) eqn:Hd.
    + rewrite (isdir_not_isfile _ _ Hd). by destruct (islink os p).
    + by destruct (isfile os p), (islink os p).
  - intros Hn. destruct (nonexistent_predicates _ Hn) as (Hl & Hf & Hd).
    rewrite holds_is_file, holds_is_dir, Hf, Hd.
    unfold is_link. cbn. rewrite Hl.
    by destruct p.
Qed.

(** C6, as the code behaves: on an empty or absent path no operation
    raises, and all return a false value, [None] or the path itself,
    except [is_special], which returns [True]. *)
Theorem empty_path_results (location : option string) :
  truthy (loc_val location) = false ->
  is_link os location = loc_val location
  /\ is_file os location false = Ok (loc_val location)
  /\ is_dir os location false = Ok (loc_val location)
  /\ is_regular os location = Ok (loc_val location)
  /\ is_special os location = Ok (PyBool true)
  /\ is_readable os location = Ok PyNone
  /\ is_writable os location = Ok PyNone
  /\ is_executable os location = Ok PyNone
  /\ is_rwx os location = Ok PyNone
  /\ get_type os location true = Ok PyNone
  /\ get_type os location false = Ok PyNone.
Proof.
  intros H.
  rewrite is_special_value, is_regular_value, is_file_value, is_dir_value.
  unfold is_rwx, is_readable, is_writable, is_executable, get_type, is_link.
  rewrite H.
  destruct location as [[|c s]|]; cbn in *; done.
Qed.

(** C9: for a broken symbolic link [get_type] answers "l" or "link", the
    first entry of [TYPES], although [is_special] holds for the path as
    well. *)
Theorem broken_link_type (location : option string) :
  holds (is_broken_link os location) = true ->
  get_type os location true = Ok (PyStr "l")
  /\ get_type os location false = Ok (PyStr "link")
  /\ holds (is_special os location) = true.
Proof.
  intros Hb.
  assert (Hl : truthy (is_link os location) = true).
  { destruct (truthy (is_link os location)) eqn:E; [done|].
    by rewrite (is_broken_link_of_non_link _ _ E) in Hb. }
  destruct location as [p|]; [|done].
  unfold is_link in Hl. cbn in Hl.
  destruct (str_truthy p) eqn:Hp; [|by destruct p].
  cbn in Hl.
  rewrite !get_type_value by done.
  rewrite holds_is_special, holds_is_file, holds_is_dir, Hl, Hp.
  by rewrite !andb_false_r.
Qed.

(** C10: the negative results are false values other than [False].  On an
    empty path [is_link] returns the path itself and the permission checks
    return [None]; [is_broken_link] returns [None] when the path is not a
    link or the platform has no links.  Each of these values fails both
    the truth test and the identity test with [False]. *)
Theorem negative_results_not_False (location : option string) :
  (truthy (loc_val location) = false ->
     is_link os location = loc_val location
     /\ is_False (is_link os location) = false
     /\ is_readable os location = Ok PyNone
     /\ is_writable os location = Ok PyNone
     /\ is_executable os location = Ok PyNone)
  /\ (truthy (is_link os location) = false \/ on_posix os = false ->
        is_broken_link os location = Ok PyNone)
  /\ truthy PyNone = false /\ is_False PyNone = false.
Proof.
  split; [|split; [|done]].
  - intros H. unfold is_readable, is_writable, is_executable, is_link.
    rewrite H. by destruct location as [[|c s]|].
  - intros [H|H].
    + by apply is_broken_link_of_non_link.
    + by apply is_broken_link_off_posix.
Qed.

(** C7: [get_link_target] returns the empty string when the path is not a
    link, when the platform has no links, and when [os.readlink] fails with
    [UnicodeEncodeError]; in that last case [is_broken_link] returns a false
    value.  Neither raises. *)
Theorem link_target_failsafe (location : option string) :
  (truthy (is_link os location) = false
   \/ on_posix os = false
   \/ (exists p, location = Some p
                 /\ os_readlink os p = Raise UnicodeEncodeError)) ->
  get_link_target os location = Ok ""
  /\ exists v, is_broken_link os location = Ok v /\ truthy v = false.
Proof.
  intros H.
  assert (Ht : get_link_target os location = Ok "").
  { unfold get_link_target.
    destruct H as [H|[H|(p & -> & H)]].
    - by rewrite H, andb_false_r.
    - by rewrite H.
    - cbn [with_str]. rewrite H. by destruct (_ && _). }
  split; [done|].
  unfold is_broken_link. rewrite Ht.
  destruct (truthy (PyBool (on_posix os)) && truthy (is_link os location))
    eqn:E.
  - destruct location as [p|]; [|by rewrite andb_false_r in E].
    by exists (PyStr "").
  - by exists PyNone.
Qed.

(** C3, amended: for a directory, [is_writable] and [is_executable] both
    test read, write and execute permission together; for a plain file
    [is_writable] tests read and write together and [is_executable] tests
    execute alone. *)
Theorem permission_masks (location : option string) :
  (holds (is_dir os location false) = true ->
     exists p, location = Some p
       /\ is_writable os location
          = Ok (PyBool (os_access os p (Z.lor (Z.lor R_OK W_OK) X_OK)))
       /\ is_executable os location
          = Ok (PyBool (os_access os p (Z.lor (Z.lor R_OK W_OK) X_OK))))
  /\ (holds (is_file os location false) = true ->
        exists p, location = Some p
          /\ is_writable os location
             = Ok (PyBool (os_access os p (Z.lor R_OK W_OK)))
          /\ is_executable os location
             = Ok (PyBool (os_access os p X_OK))).
Proof.
  split.
  - intros Hd. destruct location as [p|]; [|done]. exists p.
    pose proof (holds_is_dir_no_nul os _ Hd) as Hn.
    pose proof Hd as Hp. rewrite holds_is_dir in Hp.
    destruct (str_truthy p) eqn:Ep; [clear Hp|done].
    unfold is_writable, is_executable. cbn [loc_val truthy]. rewrite Ep.
    destruct (is_dir os (Some p) false) as [d|]; [|done].
    cbn in Hd. cbn [mbind res_bind with_str]. rewrite Hd.
    by rewrite !(access_value os) by done.
  - intros Hf. pose proof (holds_file_not_dir _ _ Hf) as Hd.
    destruct location as [p|]; [|done]. exists p.
    pose proof (holds_is_file_no_nul os _ Hf) as Hn.
    rewrite holds_is_file in Hf.
    destruct (str_truthy p) eqn:Ep; [clear Hf|done].
    unfold is_writable, is_executable. cbn [loc_val truthy]. rewrite Ep.
    destruct (is_dir os (Some p) false) as [d|] eqn:E;
      [|by rewrite is_dir_value in E].
    cbn in Hd. cbn [mbind res_bind with_str]. rewrite Hd.
    by rewrite !(access_value os) by done.
Qed.

End Classification.

(** ** Recursive aggregation *)

Section AggregatorFacts.

Variable os : OS.

Lemma metric_key_inj (m1 m2 : Metric) :
  metric_key m1 = metric_key m2 -> m1 = m2.
Proof. by destruct m1, m2. Qed.

Lemma counting_functions_metric (m : Metric) (p : string) :
  exists count_fun,
    counting_functions os (metric_key m) = Some count_fun
    /\ count_fun (Some p) = contribution os m p.
Proof. destruct m; eexists; split; reflexivity. Qed.

Lemma file_contribution (m : Metric) (p : string) :
  holds (is_file os (Some p) false) = true ->
  exists v, contribution os m p = Ok v.
Proof.
  rewrite holds_is_file. intros H.
  destruct m; [by exists 1|].
  unfold contribution, getsize.
  destruct (str_truthy p); [|done].
  cbn in H. apply andb_true_iff in H as [H _].
  destruct (isfile_stat os p H) as (st & _ & ->). by eexists.
Qed.

Lemma cache_valid_empty : cache_valid os ∅.
Proof. intros l m v H. by rewrite lookup_empty in H. Qed.

Lemma cache_valid_insert (memos : memos_t) (location : option string)
    (m : Metric) (v : Z) :
  cache_valid os memos ->
  aggregate os m location v ->
  cache_valid os (<[(location, metric_key m) := v]> memos).
Proof.
  intros Hv Ha l' m' v'. rewrite lookup_insert.
  case_decide as E.
  - intros [= <-]. inversion E as [[El Em]].
    apply metric_key_inj in Em. by subst.
  - apply Hv.
Qed.

(** The three branches of the body of [counter]. *)
Lemma counter_body_file (c : option string -> string -> M Z)
    (location : option string) (key : string) (memos : memos_t) :
  holds (is_file os location false) = true ->
  counter_body os c location key memos
  = match counting_functions os key with
    | Some count_fun => Some (count_fun location, memos)
    | None => Some (Raise KeyError, memos)
    end.
Proof.
  intros Hf. unfold counter_body, m_bind, m_lift.
  destruct (is_file os location false) as [f|]; [|done].
  cbn in Hf |- *. repeat (rewrite Hf; cbn).
  by destruct (counting_functions os key).
Qed.

Lemma counter_body_dir (c : option string -> string -> M Z)
    (p : string) (key : string) (memos : memos_t) :
  holds (is_dir os (Some p) false) = true ->
  counter_body os c (Some p) key memos
  = match os_scandir os p with
    | Ok names =>
        match sum_gen (fun name => c (Some (path_join os p name)) key)
                      names 0 memos with
        | Some (Ok s, memos') => Some (Ok (0 + s), memos')
        | other => other
        end
    | Raise e => Some (Raise e, memos)
    end.
Proof.
  intros Hd. unfold counter_body, m_bind, m_lift, m_ret.
  destruct (is_file os (Some p) false) as [f|] eqn:Ef;
    [|by rewrite is_file_value in Ef].
  assert (Hf : truthy f = false).
  { destruct (truthy f) eqn:E; [|done].
    assert (Hh : holds (is_file os (Some p) false) = true) by by rewrite Ef.
    apply holds_file_not_dir in Hh. congruence. }
  destruct (is_dir os (Some p) false) as [d|]; [|done].
  cbn in Hd |- *. repeat (first [rewrite Hf | rewrite Hd]; cbn).
  destruct (os_scandir os p) as [names|e]; [|done].
  by destruct (sum_gen _ names 0 memos) as [[[s|e] memos']|].
Qed.

Lemma counter_body_other (c : option string -> string -> M Z)
    (location : option string) (key : string) (memos : memos_t) :
  holds (is_file os location false) = false ->
  holds (is_dir os location false) = false ->
  counter_body os c location key memos = Some (Ok 0, memos).
Proof.
  intros Hf Hd. unfold counter_body, m_bind, m_lift, m_ret.
  destruct (is_file os location false) as [f|] eqn:Ef;
    [|by rewrite is_file_value in Ef].
  destruct (is_dir os location false) as [d|] eqn:Ed;
    [|by rewrite is_dir_value in Ed].
  cbn in Hf, Hd |- *. by repeat (first [rewrite Hf | rewrite Hd]; cbn).
Qed.

Lemma sum_gen_returns (P : string -> Z -> Prop) call names :
  (forall name, In name names ->
     forall memos, cache_valid os memos ->
       exists v memos',
         call name memos = Some (Ok v, memos')
         /\ P name v /\ cache_valid os memos') ->
  forall acc memos, cache_valid os memos ->
    exists vs memos',
      sum_gen call names acc memos = Some (Ok (acc + total vs), memos')
      /\ Forall2 P names vs /\ cache_valid os memos'.
Proof.
  induction names as [|name rest IH]; intros Hcall acc memos Hv.
  - exists [], memos. cbn. unfold m_ret. rewrite Z.add_0_r. by repeat split.
  - destruct (Hcall name (or_introl eq_refl) memos Hv)
      as (v & memos1 & Hc & HP & Hv1).
    destruct (IH (fun n Hn => Hcall n (or_intror Hn)) (acc + v) memos1 Hv1)
      as (vs & memos2 & Hs & HF & Hv2).
    exists (v :: vs), memos2. cbn. unfold m_bind. rewrite Hc, Hs.
    repeat split; [|by constructor|done].
    unfold total. do 3 f_equal. lia.
Qed.

Lemma counter_unfold (fuel : nat) (location : option string) (key : string)
    (memos : memos_t) :
  counter os (S fuel) location key memos
  = memoize (counter_body os (counter os fuel)) location key memos.
Proof. reflexivity. Qed.

Lemma counter_sound (m : Metric) location n :
  walkable os location n ->
  forall memos, cache_valid os memos ->
    exists v memos',
      counter os (S n) location (metric_key m) memos = Some (Ok v, memos')
      /\ aggregate os m location v /\ cache_valid os memos'.
Proof.
  induction 1 as [location n Hd | p names n Hd Hls Hkids IH];
    intros memos Hv; rewrite counter_unfold; unfold memoize;
    destruct (memos !! (_, metric_key m)) as [v|] eqn:Hhit;
    try (exists v, memos; split; [done|split; [by apply Hv|done]]).
  - destruct (holds (is_file os location false)) eqn:Hf.
    + rewrite counter_body_file by done.
      destruct location as [p|]; [|done].
      destruct (counting_functions_metric m p) as (f & -> & Hfun).
      destruct (file_contribution m p Hf) as (v & Hc).
      rewrite Hfun, Hc.
      assert (Ha : aggregate os m (Some p) v) by by constructor.
      exists v. eexists. split; [done|]. split; [done|].
      by apply cache_valid_insert.
    + rewrite counter_body_other by done.
      assert (Ha : aggregate os m location 0) by by constructor.
      exists 0. eexists. split; [done|]. split; [done|].
      by apply cache_valid_insert.
  - rewrite counter_body_dir, Hls by done.
    destruct (sum_gen_returns
                (fun name v => aggregate os m (Some (path_join os p name)) v)
                (fun name => counter os (S n) (Some (path_join os p name))
                               (metric_key m))
                names) with (acc := 0) (memos := memos)
      as (vs & memos' & Hs & HF & Hv'); [|done|].
    { intros name Hin memos0 Hv0. by apply IH. }
    rewrite Hs. cbn [Z.add] in *.
    assert (Ha : aggregate os m (Some p) (total vs)) by by econstructor.
    exists (total vs). eexists. split; [done|]. split; [done|].
    by apply cache_valid_insert.
Qed.

Lemma Forall2_functional {A B} (R : A -> B -> Prop) xs ys1 ys2 :
  (forall x, In x xs -> forall y1 y2, R x y1 -> R x y2 -> y1 = y2) ->
  Forall2 R xs ys1 -> Forall2 R xs ys2 -> ys1 = ys2.
Proof.
  intros Hfun H1. revert ys2.
  induction H1 as [|x y1 xs ys1 Hxy _ IH]; intros ys2 H2;
    inversion H2; subst; [done|].
  f_equal.
  - eapply Hfun; [by left|done..].
  - apply IH; [|done]. intros x' Hin. apply Hfun. by right.
Qed.

Lemma aggregate_functional (m : Metric) location n :
  walkable os location n ->
  forall v1 v2,
    aggregate os m location v1 -> aggregate os m location v2 -> v1 = v2.
Proof.
  induction 1 as [location n Hd | p names n Hd Hls Hkids IH];
    intros v1 v2 H1 H2.
  - inversion H1; subst; inversion H2; subst; congruence.
  - inversion H1 as [? ? Hf1 | ? names1 vs1 _ Hls1 HF1 | ? Hf1 Hd1]; subst;
      [apply holds_file_not_dir in Hf1; congruence | | congruence].
    inversion H2 as [? ? Hf2 | ? names2 vs2 _ Hls2 HF2 | ? Hf2 Hd2]; subst;
      [apply holds_file_not_dir in Hf2; congruence | | congruence].
    assert (names1 = names) by congruence.
    assert (names2 = names) by congruence. subst.
    f_equal. eapply Forall2_functional; [|exact HF1|exact HF2].
    intros name Hin y1 y2. by apply IH.
Qed.

Lemma walkable_mono location n n' :
  (n <= n')%nat -> walkable os location n -> walkable os location n'.
Proof.
  intros Hle Hw. revert n' Hle.
  induction Hw as [location n Hd | p names n Hd Hls Hkids IH]; intros n' Hle.
  - by apply walkable_leaf.
  - destruct n' as [|n']; [lia|].
    eapply walkable_dir; [done..|].
    intros name Hin. apply IH; [done|lia].
Qed.

(** On a walkable tree [counter] returns one value, whatever valid cache
    it starts from and whatever fuel above the depth of the tree it is
    given. *)
Lemma counter_returns (m : Metric) location n :
  walkable os location n ->
  exists v,
    aggregate os m location v
    /\ forall fuel, (n < fuel)%nat -> returns os fuel location m v.
Proof.
  intros Hw.
  destruct (counter_sound m _ _ Hw ∅ cache_valid_empty)
    as (v & _ & _ & Ha & _).
  exists v. split; [done|].
  intros [|k] Hlt memos Hv; [lia|].
  assert (Hk : walkable os location k) by (eapply walkable_mono; [|done]; lia).
  destruct (counter_sound m _ _ Hk memos Hv) as (v' & memos' & Hc & Ha' & Hv').
  exists memos'. split; [|done].
  by rewrite (aggregate_functional m _ _ Hw _ _ Ha Ha').
Qed.

End AggregatorFacts.

Section AggregatorClaims.

Variable os : OS.

Lemma Forall2_impl_In {A B} (R Q : A -> B -> Prop) xs ys :
  (forall x y, In x xs -> R x y -> Q x y) ->
  Forall2 R xs ys -> Forall2 Q xs ys.
Proof.
  intros Himp H.
  induction H as [|x y xs ys Hxy _ IH]; constructor.
  - apply Himp; [by left|done].
  - apply IH. intros x' y' Hin. apply Himp. by right.
Qed.

(** C4: on a tree that can be walked to depth [n], from any cache that
    agrees with the filesystem and with any fuel above [n], the aggregator
    returns one value [v]: the contribution of the metric (1, or the length
    in bytes) when the path is a file; the sum of the values the aggregator
    returns for the children, each named by joining its name to the path,
    when it is a directory; and 0 when it is neither. *)
Theorem counter_cases (m : Metric) (location : option string) (n : nat) :
  walkable os location n ->
  exists v,
    (forall fuel, (n < fuel)%nat -> returns os fuel location m v)
    /\ (holds (is_file os location false) = true ->
          exists p, location = Some p /\ contribution os m p = Ok v)
    /\ (holds (is_dir os location false) = true ->
          exists p names vs,
            location = Some p
            /\ os_scandir os p = Ok names
            /\ Forall2 (fun name w =>
                 forall fuel, (n <= fuel)%nat ->
                   returns os fuel (Some (path_join os p name)) m w)
                 names vs
            /\ v = total vs)
    /\ (holds (is_file os location false) = false ->
        holds (is_dir os location false) = false ->
        v = 0).
Proof.
  intros Hw.
  destruct (counter_returns os m _ _ Hw) as (v & Ha & Hret).
  exists v. split; [done|]. split; [|split].
  - intros Hf. pose proof (holds_file_not_dir _ _ Hf) as Hd.
    inversion Ha; subst; [by eexists|congruence..].
  - intros Hd.
    inversion Hw as [? ? Hd' | p names n' _ Hls Hkids]; subst;
      [congruence|].
    inversion Ha as [? ? Hf | ? names1 vs _ Hls1 HF | ? Hf Hd1]; subst;
      [apply holds_file_not_dir in Hf; congruence | | congruence].
    assert (names1 = names) by congruence. subst.
    exists p, names, vs. repeat split; [done|].
    eapply Forall2_impl_In; [|exact HF].
    intros name w Hin Hagg fuel Hfuel. cbn beta in Hagg.
    destruct (counter_returns os m _ _ (Hkids name Hin)) as (w' & Ha' & Hr).
    rewrite (aggregate_functional os m _ _ (Hkids name Hin) _ _ Hagg Ha').
    apply Hr. lia.
  - intros Hf Hd.
    inversion Ha as [? ? Hf' | ? ? ? Hd' | ?]; subst; congruence.
Qed.

End AggregatorClaims.

(** C5: once a call of the aggregator has returned, a second call with the
    same path and metric returns the same integer and leaves the cache as
    it is; the value comes from the cache alone, whatever the state of the
    filesystem the second call runs on. *)
Theorem counter_cached (os : OS) (fuel : nat) (location : option string)
    (counting_function : string) (memos memos' : memos_t) (v : Z) :
  counter os fuel location counting_function memos = Some (Ok v, memos') ->
  forall (os' : OS) (fuel' : nat),
    counter os' (S fuel') location counting_function memos'
    = Some (Ok v, memos').
Proof.
  intros H os' fuel'.
  assert (Hhit : memos' !! (location, counting_function) = Some v).
  { destruct fuel as [|fuel]; [done|].
    cbn [counter] in H. unfold memoize in H.
    destruct (memos !! (location, counting_function)) as [v0|] eqn:E.
    - by inversion H; subst.
    - destruct (counter_body os (counter os fuel) location counting_function
                  memos) as [[[v0|e] memos0]|]; inversion H; subst.
      apply lookup_insert_eq. }
  cbn [counter]. unfold memoize. by rewrite Hhit.
Qed.

(** ** Last-modified date *)

Module DatetimeFacts.
Import Datetime DatetimeSpec.

(** *** Rounding a float to microseconds *)

Lemma rhe_div_bounds (a b : Z) :
  0 < b -> a / b <= rhe_div a b <= - ((- a) / b).
Proof.
  intros Hb. unfold rhe_div.
  pose proof (Z.div_mod a b ltac:(lia)) as E.
  pose proof (Z.mod_pos_bound a b Hb) as B.
  set (q := a / b) in *. set (r := a mod b) in *. clearbody q r.
  assert (Hc : r = 0 /\ (- a) / b = - q \/ 0 < r /\ (- a) / b = - q - 1).
  { destruct (Z.eq_dec r 0) as [->|Hr]; [left|right]; (split; [lia|]).
    - symmetry. apply (Z.div_unique _ _ _ 0); lia.
    - symmetry. apply (Z.div_unique _ _ _ (b - r)); lia. }
  repeat case_match; lia.
Qed.

Lemma two_step_bounds (P s k : Z) :
  0 < s < k ->
  P / 2 ^ k <= rhe_div (rhe_div P (2 ^ s)) (2 ^ (k - s)) <= - ((- P) / 2 ^ k).
Proof.
  intros Hs.
  assert (H1 : 0 < 2 ^ s) by (apply Z.pow_pos_nonneg; lia).
  assert (H2 : 0 < 2 ^ (k - s)) by (apply Z.pow_pos_nonneg; lia).
  assert (Hk : 2 ^ k = 2 ^ s * 2 ^ (k - s)).
  { rewrite <- Z.pow_add_r by lia. f_equal. lia. }
  pose proof (rhe_div_bounds P _ H1) as [L1 U1].
  pose proof (rhe_div_bounds (rhe_div P (2 ^ s)) _ H2) as [L2 U2].
  rewrite Hk, <- !Z.div_div by lia.
  split.
  - etrans; [|exact L2]. by apply Z.div_le_mono.
  - etrans; [exact U2|].
    apply Z.opp_le_mono. rewrite !Z.opp_involutive.
    apply Z.div_le_mono; lia.
Qed.

Lemma round_fraction_bounds (fm k : Z) :
  0 < k -> Z.abs fm < 2 ^ k ->
  (fm * 1000000) / 2 ^ k
  <= pytime_round_half_even (float_mul {| mant := fm; expo := - k |} 1000000)
  <= - ((- (fm * 1000000)) / 2 ^ k).
Proof.
  intros Hk Hfm. unfold float_mul, round_to_float. cbn [mant expo].
  set (P := fm * 1000000).
  assert (Hpk : 0 < 2 ^ k) by (apply Z.pow_pos_nonneg; lia).
  destruct (_ <=? 53) eqn:Eb.
  - unfold pytime_round_half_even. cbn [mant expo].
    destruct (0 <=? - k) eqn:E; [lia|].
    rewrite Z.opp_involutive. by apply rhe_div_bounds.
  - destruct (P =? 0) eqn:EP; [done|].
    assert (Hlog : Z.log2 (Z.abs P) < k + 20).
    { apply Z.log2_lt_pow2; [lia|].
      rewrite Z.pow_add_r by lia.
      change (2 ^ 20) with 1048576. unfold P. nia. }
    set (s := Z.log2 (Z.abs P) + 1 - 53) in *.
    assert (Hs : 0 < s < k) by lia.
    unfold pytime_round_half_even. cbn [mant expo].
    destruct (0 <=? - k + s) eqn:E; [lia|].
    replace (- (- k + s)) with (k - s) by lia.
    by apply two_step_bounds.
Qed.

Lemma modf_parts (t : float) :
  expo t < 0 ->
  exists q r,
    modf t = ({| mant := r; expo := expo t |}, q)
    /\ mant t = q * 2 ^ (- expo t) + r
    /\ Z.abs r < 2 ^ (- expo t).
Proof.
  intros He. unfold modf. destruct (0 <=? expo t) eqn:E; [lia|].
  assert (Hp : 0 < 2 ^ (- expo t)) by (apply Z.pow_pos_nonneg; lia).
  eexists _, _. split; [done|]. split.
  - rewrite Z.mul_comm. apply Z.quot_rem'.
  - pose proof (Z.rem_bound_abs (mant t) (2 ^ (- expo t)) ltac:(lia)). lia.
Qed.

Lemma modf_whole (t : float) :
  0 <= expo t ->
  modf t = ({| mant := 0; expo := 0 |}, mant t * 2 ^ expo t).
Proof. intros He. unfold modf. destruct (0 <=? expo t) eqn:E; [done|lia]. Qed.

(** The rounded timestamp is the microsecond below the timestamp or the
    one above it. *)
Lemma rounded_us_bounds (t : float) :
  floor_us t <= rounded_us t <= ceil_us t.
Proof.
  unfold floor_us, ceil_us, rounded_us.
  destruct (0 <=? expo t) eqn:E.
  - rewrite modf_whole by lia.
    change (pytime_round_half_even _) with 0. lia.
  - destruct (modf_parts t ltac:(lia)) as (q & r & -> & Hm & Hr).
    assert (Hk : 0 < - expo t) by lia.
    pose proof (round_fraction_bounds r (- expo t) Hk Hr) as Hb.
    rewrite Z.opp_involutive in Hb.
    assert (Hp : 0 < 2 ^ (- expo t)) by (apply Z.pow_pos_nonneg; lia).
    rewrite Hm. set (b := 2 ^ (- expo t)) in *.
    replace ((q * b + r) * 1000000) with (q * 1000000 * b + r * 1000000)
      by ring.
    replace (- (q * 1000000 * b + r * 1000000))
      with ((- (q * 1000000)) * b + - (r * 1000000)) by ring.
    rewrite !Z.div_add_l by lia. lia.
Qed.

(** The rounded fraction is within a second. *)
Lemma fraction_bounds (t : float) :
  let '(floatpart, intpart) := modf t in
  - 1000000 <= pytime_round_half_even (float_mul floatpart 1000000) <= 1000000.
Proof.
  destruct (Z.le_gt_cases 0 (expo t)) as [He|He].
  - rewrite modf_whole by done.
    change (pytime_round_half_even _) with 0. lia.
  - destruct (modf_parts t He) as (q & r & -> & Hm & Hr).
    assert (Hk : 0 < - expo t) by lia.
    pose proof (round_fraction_bounds r (- expo t) Hk Hr) as Hb.
    rewrite Z.opp_involutive in Hb.
    assert (Hp : 0 < 2 ^ (- expo t)) by (apply Z.pow_pos_nonneg; lia).
    set (b := 2 ^ (- expo t)) in *.
    assert (- 1000000 <= r * 1000000 / b).
    { apply Z.div_le_lower_bound; lia. }
    assert (- 1000000 <= (- (r * 1000000)) / b).
    { apply Z.div_le_lower_bound; lia. }
    lia.
Qed.

(** Seconds and microseconds of the rounded timestamp. *)
Lemma double_to_denominator_value (t : float) :
  pytime_double_to_denominator t
  = let timet := rounded_us t / 1000000 in
    if (- 2 ^ 63 <=? timet) && (timet <=? 2 ^ 63)
    then Ok (timet, rounded_us t mod 1000000)
    else Raise OverflowError.
Proof.
  unfold pytime_double_to_denominator, rounded_us.
  pose proof (fraction_bounds t) as Hb.
  destruct (modf t) as [floatpart intpart].
  set (r := pytime_round_half_even _) in *. clearbody r.
  cbv zeta.
  assert (Hv : (if 1000000 <=? r then (r - 1000000, intpart + 1)
                else if r <? 0 then (r + 1000000, intpart - 1)
                else (r, intpart))
               = ((intpart * 1000000 + r) mod 1000000,
                  (intpart * 1000000 + r) / 1000000)).
  { repeat case_match; f_equal; Z.div_mod_to_equations; lia. }
  rewrite Hv. done.
Qed.

(** *** The calendar *)

Lemma isoformat_date (dt : datetime) :
  substring 0 10 (isoformat dt)
  = date_string (year dt) (month dt) (day dt).
Proof. reflexivity. Qed.

Lemma date_string_length (y m d : Z) :
  String.length (date_string y m d) = 10%nat.
Proof. reflexivity. Qed.

Lemma all_from_spec (check : Z -> bool) (count : nat) : forall start i,
  all_from check start count = true ->
  start <= i < start + Z.of_nat count -> check i = true.
Proof.
  induction count as [|k IH]; intros start i H Hi; [lia|].
  cbn [all_from] in H. apply andb_true_iff in H as [H0 H1].
  destruct (Z.eq_dec i start) as [->|Hne]; [done|].
  apply (IH (start + 1)); [done|lia].
Qed.

(** Every day of a year, leap or not, checked by evaluation. *)
Lemma month_day_checked (leapyear : bool) (n : Z) :
  0 <= n < 365 -> month_day_ok leapyear n = true.
Proof.
  intros Hn.
  assert (H : all_from (month_day_ok leapyear) 0 365 = true)
    by (destruct leapyear; vm_compute; reflexivity).
  apply (all_from_spec _ _ _ _ H). lia.
Qed.

(** [_ord2ymd] cut at the point where the year is known. *)
Lemma ord2ymd_split (n : Z) :
  let n0 := n - 1 in
  let n400 := n0 / _DI400Y in
  let r400 := n0 mod _DI400Y in
  let n100 := r400 / _DI100Y in
  let r100 := r400 mod _DI100Y in
  let n4 := r100 / _DI4Y in
  let r4 := r100 mod _DI4Y in
  let n1 := r4 / 365 in
  let r1 := r4 mod 365 in
  let y := n400 * 400 + 1 + n100 * 100 + n4 * 4 + n1 in
  _ord2ymd n
  = if (n1 =? 4) || (n100 =? 4) then (y - 1, 12, 31)
    else let '(m, d) :=
           month_day ((n1 =? 3) && (negb (n4 =? 24) || (n100 =? 3))) r1 in
         (y, m, d).
Proof.
  cbv zeta. unfold _ord2ymd, month_day. cbv zeta.
  destruct (_ || _); [done|].
  by destruct (_ >? _).
Qed.

Lemma is_leap_iff (y : Z) :
  _is_leap y = true
  <-> y mod 4 = 0 /\ (y mod 100 <> 0 \/ y mod 400 = 0).
Proof.
  unfold _is_leap.
  rewrite andb_true_iff, orb_true_iff, negb_true_iff, !Z.eqb_eq, Z.eqb_neq.
  tauto.
Qed.

(** The date [_ord2ymd] gives for a day number is a date of the calendar,
    and it is the date of that day: [_ymd2ord] leads back. *)
Lemma ord2ymd_ymd2ord (n : Z) :
  let '(y, m, d) := _ord2ymd n in
  _ymd2ord y m d = n
  /\ 1 <= m <= 12
  /\ 1 <= d <= _days_in_month y m.
Proof.
  rewrite ord2ymd_split. cbv zeta.
  unfold _DI400Y, _DI100Y, _DI4Y.
  set (n0 := n - 1).
  pose proof (Z.div_mod n0 146097 ltac:(lia)) as E400.
  pose proof (Z.mod_pos_bound n0 146097 ltac:(lia)) as B400.
  set (n400 := n0 / 146097) in *. set (r400 := n0 mod 146097) in *.
  pose proof (Z.div_mod r400 36524 ltac:(lia)) as E100.
  pose proof (Z.mod_pos_bound r400 36524 ltac:(lia)) as B100.
  set (n100 := r400 / 36524) in *. set (r100 := r400 mod 36524) in *.
  pose proof (Z.div_mod r100 1461 ltac:(lia)) as E4.
  pose proof (Z.mod_pos_bound r100 1461 ltac:(lia)) as B4.
  set (n4 := r100 / 1461) in *. set (r4 := r100 mod 1461) in *.
  pose proof (Z.div_mod r4 365 ltac:(lia)) as E1.
  pose proof (Z.mod_pos_bound r4 365 ltac:(lia)) as B1.
  set (n1 := r4 / 365) in *. set (r1 := r4 mod 365) in *.
  assert (Hn : n = n0 + 1) by (unfold n0; lia).
  clearbody n0 n400 r400 n100 r100 n4 r4 n1 r1.
  set (y := n400 * 400 + 1 + n100 * 100 + n4 * 4 + n1).
  destruct ((n1 =? 4) || (n100 =? 4)) eqn:Eedge.
  - (* the last day of a leap year *)
    assert (Hl : _is_leap (y - 1) = true).
    { apply is_leap_iff. unfold y. Z.div_mod_to_equations. lia. }
    unfold _ymd2ord, _days_in_month, _days_before_month, _days_before_year.
    rewrite Hl.
    change (table _DAYS_IN_MONTH 12) with 31.
    change (table _DAYS_BEFORE_MONTH 12) with 334.
    change (12 =? 2) with false. change (12 >? 2) with true. cbn [andb].
    unfold y in *. clear Hl.
    split; [|lia].
    Z.div_mod_to_equations. lia.
  - set (b := (n1 =? 3) && (negb (n4 =? 24) || (n100 =? 3))).
    assert (Hb : _is_leap y = b).
    { apply eq_true_iff_eq. rewrite is_leap_iff. unfold b, y.
      rewrite andb_true_iff, orb_true_iff, negb_true_iff, !Z.eqb_eq,
        Z.eqb_neq.
      Z.div_mod_to_equations. lia. }
    pose proof (month_day_checked b r1 B1) as Hmd.
    unfold month_day_ok in Hmd.
    destruct (month_day b r1) as [m d].
    rewrite !andb_true_iff, !Z.leb_le, Z.eqb_eq in Hmd.
    destruct Hmd as ((((Hm1 & Hm2) & Hd1) & Hd2) & Hsum).
    unfold _ymd2ord, _days_in_month, _days_before_month, _days_before_year.
    rewrite Hb. split; [|lia].
    assert (Hy : let y' := y - 1 in
                 y' * 365 + y' / 4 - y' / 100 + y' / 400 = n0 - r1).
    { cbv zeta. unfold y. clear Hb Hsum Hd2.
      Z.div_mod_to_equations. lia. }
    cbv zeta in Hy. lia.
Qed.

(** The date of a timestamp is the calendar date of its day. *)
Lemma utc_date_calendar (t_us y m d : Z) :
  utc_date t_us = (y, m, d) ->
  _ymd2ord y m d = EPOCH_ORDINAL + utc_days t_us
  /\ 1 <= m <= 12
  /\ 1 <= d <= _days_in_month y m.
Proof.
  unfold utc_date. intros H.
  pose proof (ord2ymd_ymd2ord (EPOCH_ORDINAL + utc_days t_us)) as Hc.
  by rewrite H in Hc.
Qed.

Lemma days_in_month_bound (y m : Z) :
  1 <= m <= 12 -> _days_in_month y m <= 31.
Proof.
  intros Hm. unfold _days_in_month.
  destruct ((m =? 2) && _is_leap y); [lia|].
  assert (m = 1 \/ m = 2 \/ m = 3 \/ m = 4 \/ m = 5 \/ m = 6 \/ m = 7
          \/ m = 8 \/ m = 9 \/ m = 10 \/ m = 11 \/ m = 12) as H by lia.
  repeat destruct H as [->|H]; try subst m; vm_compute; discriminate.
Qed.

Lemma days_before_month_bound (y m : Z) :
  1 <= m <= 12 -> 0 <= _days_before_month y m <= 335.
Proof.
  intros Hm. unfold _days_before_month.
  assert (m = 1 \/ m = 2 \/ m = 3 \/ m = 4 \/ m = 5 \/ m = 6 \/ m = 7
          \/ m = 8 \/ m = 9 \/ m = 10 \/ m = 11 \/ m = 12) as H by lia.
  repeat destruct H as [->|H]; try subst m;
    destruct (_is_leap y); vm_compute; split; discriminate.
Qed.

(** The days of the years 1 to 9999, counted from the epoch. *)
Lemma utc_days_of_year (t_us y m d : Z) :
  utc_date t_us = (y, m, d) -> MINYEAR <= y <= MAXYEAR ->
  - 719162 <= utc_days t_us <= 2932897.
Proof.
  intros Hd Hy.
  destruct (utc_date_calendar _ _ _ _ Hd) as (Ho & Hm & Hday).
  pose proof (days_in_month_bound y m Hm).
  pose proof (days_before_month_bound y m Hm).
  unfold _ymd2ord, _days_before_year, EPOCH_ORDINAL, MINYEAR, MAXYEAR in *.
  Z.div_mod_to_equations. lia.
Qed.

Lemma fromtimestamp_utc_value (t : float) :
  fromtimestamp_utc t
  = let timet := rounded_us t / 1000000 in
    if (- 2 ^ 63 <=? timet) && (timet <=? 2 ^ 63) then
      let '(y, m, d) := utc_date (rounded_us t) in
      if negb ((- 2 ^ 31 <=? y - 1900) && (y - 1900 <? 2 ^ 31))
      then Raise OSError
      else if (MINYEAR <=? y) && (y <=? MAXYEAR) then
        Ok {| year := y; month := m; day := d;
              hour := timet mod 86400 / 3600;
              minute := timet mod 86400 mod 3600 / 60;
              second := timet mod 86400 mod 60;
              microsecond := rounded_us t mod 1000000 |}
      else Raise ValueError
    else Raise OverflowError.
Proof.
  unfold fromtimestamp_utc. rewrite double_to_denominator_value. cbv zeta.
  destruct (_ && _); [|done]. cbn [mbind res_bind].
  unfold utc_date, utc_days.
  rewrite Z.div_div by lia.
  by change (1000000 * 86400) with 86400000000.
Qed.

Lemma fromtimestamp_utc_date (t : float) (y m d : Z) :
  utc_date (rounded_us t) = (y, m, d) ->
  MINYEAR <= y <= MAXYEAR ->
  exists dt,
    fromtimestamp_utc t = Ok dt
    /\ year dt = y /\ month dt = m /\ day dt = d.
Proof.
  intros Hd Hy. rewrite fromtimestamp_utc_value. cbv zeta.
  pose proof (utc_days_of_year _ _ _ _ Hd Hy) as Hb.
  unfold utc_days in Hb.
  assert ((- 2 ^ 63 <=? rounded_us t / 1000000)
          && (rounded_us t / 1000000 <=? 2 ^ 63) = true) as ->.
  { apply andb_true_iff. rewrite !Z.leb_le.
    change (2 ^ 63) with 9223372036854775808.
    Z.div_mod_to_equations. lia. }
  rewrite Hd. unfold MINYEAR, MAXYEAR in *.
  assert (negb ((- 2 ^ 31 <=? y - 1900) && (y - 1900 <? 2 ^ 31)) = false)
    as -> by (change (2 ^ 31) with 2147483648; lia).
  assert ((1 <=? y) && (y <=? 9999) = true) as -> by lia.
  by eexists.
Qed.

Lemma fromtimestamp_utc_range (t : float) (dt : datetime) :
  fromtimestamp_utc t = Ok dt ->
  utc_date (rounded_us t) = (year dt, month dt, day dt)
  /\ MINYEAR <= year dt <= MAXYEAR.
Proof.
  rewrite fromtimestamp_utc_value. cbv zeta.
  destruct (_ && _); [|done].
  destruct (utc_date _) as [[y m] d].
  destruct (negb _); [done|].
  destruct ((MINYEAR <=? y) && (y <=? MAXYEAR)) eqn:E; [|done].
  intros [= <-]. cbn. split; [done|lia].
Qed.

End DatetimeFacts.

Section LastModifiedClaims.

Variable os : OS.


End LastModifiedClaims.

(** ** The properties on the example filesystem *)

Module DemoFacts.
Import Demo.

(** The scenario of the specification: [root] holds [a.txt] (5 bytes) and
    [sub/b.txt] (3 bytes). *)
Example root_file_count :
  fst <$> get_file_count posix 3 (Some "/srv/root") ∅ = Some (Ok 2).
Proof. vm_compute. reflexivity. Qed.

Example root_size :
  fst <$> get_size posix 3 (Some "/srv/root") ∅ = Some (Ok 8).
Proof. vm_compute. reflexivity. Qed.

Example dangling_is_broken :
  is_broken_link posix (Some "/srv/dangling") = Ok (PyBool true).
Proof. reflexivity. Qed.

Example link_is_not_broken :
  is_broken_link posix (Some "/srv/link") = Ok (PyBool false).
Proof. reflexivity. Qed.

Example epoch_date :
  Datetime.isoformat <$> Datetime.fromtimestamp_utc (seconds 0)
  = Ok "1970-01-01T00:00:00+00:00".
Proof. reflexivity. Qed.

(** 951868799.75 *)
Example leap_day_date :
  Datetime.isoformat
  <$> Datetime.fromtimestamp_utc {| mant := 3807475199; expo := -2 |}
  = Ok "2000-02-29T23:59:59.750000+00:00".
Proof. vm_compute. reflexivity. Qed.

(** Half a microsecond goes to the even neighbour, and a negative
    timestamp counts back from the epoch. *)
Example half_microsecond_dates :
  Datetime.isoformat
  <$> Datetime.fromtimestamp_utc {| mant := 2 ^ 40 + 1; expo := -40 |}
  = Ok "1970-01-01T00:00:01+00:00"
  /\ Datetime.isoformat
     <$> Datetime.fromtimestamp_utc {| mant := -1; expo := -2 |}
     = Ok "1969-12-31T23:59:59.750000+00:00".
Proof. split; vm_compute; reflexivity. Qed.

(** Far from the epoch the error is the one of [time_t], then the one of
    [gmtime], then the one of [datetime]. *)
Example out_of_range_dates :
  Datetime.fromtimestamp_utc {| mant := 1; expo := 64 |}
  = Raise OverflowError
  /\ Datetime.fromtimestamp_utc {| mant := 1; expo := 62 |} = Raise OSError
  /\ Datetime.fromtimestamp_utc (seconds 253402300800) = Raise ValueError
  /\ Datetime.fromtimestamp_utc (seconds (- 62135596801)) = Raise ValueError.
Proof. repeat split; vm_compute; reflexivity. Qed.

Lemma walkable_root : walkable posix (Some "/srv/root") 2.
Proof.
  apply walkable_dir with (names := ["a.txt"; "sub"]); [reflexivity..|].
  intros name [<-|[<-|[]]].
  - apply walkable_leaf. reflexivity.
  - apply walkable_dir with (names := ["b.txt"]); [reflexivity..|].
    intros name [<-|[]]. apply walkable_leaf. reflexivity.
Defined.

Lemma get_type_nonexistent_witness :
  str_truthy "/srv/missing" = true
  /\ nonexistent posix "/srv/missing"
  /\ get_type posix (Some "/srv/missing") true = Ok (PyStr "s")
  /\ get_type posix (Some "/srv/missing") false = Ok (PyStr "special").
Proof.
  split; [reflexivity|]. split; [split; reflexivity|].
  apply (get_type_nonexistent posix "/srv/missing");
    [reflexivity | split; reflexivity].
Defined.

(** C2, refuted as stated: the link [/srv/link] exists, and both [is_link]
    and [is_special] hold for it; the path [/srv/missing] does not exist,
    and [is_special] holds for it. *)
Lemma partition_counterexample :
  lexists posix "/srv/link" = true
  /\ kinds posix (Some "/srv/link") = [true; false; false; true]
  /\ count_true (kinds posix (Some "/srv/link")) = 2%nat
  /\ nonexistent posix "/srv/missing"
  /\ kinds posix (Some "/srv/missing") = [false; false; false; true].
Proof. repeat split; reflexivity. Qed.

Lemma partition_amended_witness :
  (lexists posix "/srv/fifo" = true
   /\ kinds posix (Some "/srv/fifo") = [false; false; false; true]
   /\ count_true (kinds posix (Some "/srv/fifo")) = 1%nat)
  /\ (lexists posix "/srv/link" = true
      /\ truthy (is_link posix (Some "/srv/link")) = true
      /\ holds (is_special posix (Some "/srv/link")) = true)
  /\ (nonexistent posix "/srv/missing"
      /\ holds (is_file posix (Some "/srv/missing") false) = false).
Proof.
  split; [|split].
  - split; [reflexivity|]. split; [reflexivity|].
    destruct (partition_amended posix "/srv/fifo") as [H _].
    destruct (H eq_refl) as (_ & _ & H1). exact (H1 eq_refl).
  - split; [reflexivity|]. split; [reflexivity|].
    destruct (partition_amended posix "/srv/link") as [H _].
    destruct (H eq_refl) as (_ & H1 & _). exact (proj1 (H1 eq_refl)).
  - split; [split; reflexivity|].
    destruct (partition_amended posix "/srv/missing") as [_ H].
    destruct (H (conj eq_refl eq_refl)) as (_ & H1 & _). exact H1.
Defined.

(** C3, refuted as stated: the directory [/srv/rw] grants read and write
    together, yet [is_writable] answers [False]; the directory [/srv/rx]
    grants read and execute together, yet [is_executable] answers
    [False]. *)
Lemma permission_counterexample :
  (holds (is_dir posix (Some "/srv/rw") false) = true
   /\ os_access posix "/srv/rw" (Z.lor R_OK W_OK) = true
   /\ is_writable posix (Some "/srv/rw") = Ok (PyBool false))
  /\ (holds (is_dir posix (Some "/srv/rx") false) = true
      /\ os_access posix "/srv/rx" (Z.lor R_OK X_OK) = true
      /\ is_executable posix (Some "/srv/rx") = Ok (PyBool false)).
Proof. repeat split; reflexivity. Qed.

Lemma permission_masks_witness :
  (holds (is_dir posix (Some "/srv/rx") false) = true
   /\ is_writable posix (Some "/srv/rx")
      = Ok (PyBool (os_access posix "/srv/rx"
                      (Z.lor (Z.lor R_OK W_OK) X_OK)))
   /\ is_executable posix (Some "/srv/rx")
      = Ok (PyBool (os_access posix "/srv/rx"
                      (Z.lor (Z.lor R_OK W_OK) X_OK))))
  /\ (holds (is_file posix (Some "/srv/root/a.txt") false) = true
      /\ is_writable posix (Some "/srv/root/a.txt")
         = Ok (PyBool (os_access posix "/srv/root/a.txt"
                         (Z.lor R_OK W_OK)))
      /\ is_executable posix (Some "/srv/root/a.txt")
         = Ok (PyBool (os_access posix "/srv/root/a.txt" X_OK))).
Proof.
  split.
  - split; [reflexivity|].
    destruct (permission_masks posix (Some "/srv/rx")) as [H _].
    destruct (H eq_refl) as (p & Hp & Hw & Hx).
    injection Hp as <-. by split.
  - split; [reflexivity|].
    destruct (permission_masks posix (Some "/srv/root/a.txt")) as [_ H].
    destruct (H eq_refl) as (p & Hp & Hw & Hx).
    injection Hp as <-. by split.
Defined.

Lemma counter_cases_witness :
  walkable posix (Some "/srv/root") 2
  /\ exists v,
       returns posix 3 (Some "/srv/root") FileSize v
       /\ (exists names vs,
             os_scandir posix "/srv/root" = Ok names
             /\ Forall2 (fun name w =>
                  returns posix 2
                    (Some (path_join posix "/srv/root" name)) FileSize w)
                  names vs
             /\ v = total vs).
Proof.
  split; [exact walkable_root|].
  destruct (counter_cases posix FileSize _ _ walkable_root)
    as (v & Hret & _ & Hdir & _).
  exists v. split; [exact (Hret 3%nat (le_n 3))|].
  destruct (Hdir eq_refl) as (p & names & vs & Hp & Hls & HF & Hv).
  injection Hp as <-. exists names, vs. split; [exact Hls|]. split; [|exact Hv].
  eapply Forall2_impl_In; [|exact HF].
  intros name w _ Hw. exact (Hw 2%nat (le_n 2)).
Defined.

Lemma counter_cached_witness :
  exists memos' : memos_t,
    counter posix 3 (Some "/srv/root") "file_size" ∅ = Some (Ok 8, memos')
    /\ counter (filesystem false) 1 (Some "/srv/root") "file_size" memos'
       = Some (Ok 8, memos').
Proof.
  assert (H : fst <$> counter posix 3 (Some "/srv/root") "file_size" ∅
              = Some (Ok 8)) by (vm_compute; reflexivity).
  destruct (counter posix 3 (Some "/srv/root") "file_size" ∅)
    as [[r memos']|] eqn:E; [|discriminate H].
  injection H as ->. exists memos'. split; [reflexivity|].
  exact (counter_cached _ _ _ _ _ _ _ E (filesystem false) 0%nat).
Defined.

Lemma empty_path_results_witness :
  truthy (loc_val (Some "")) = false
  /\ is_link posix (Some "") = PyStr ""
  /\ is_special posix (Some "") = Ok (PyBool true)
  /\ is_rwx posix (Some "") = Ok PyNone
  /\ get_type posix (Some "") true = Ok PyNone
  /\ is_special posix None = Ok (PyBool true)
  /\ get_type posix None false = Ok PyNone.
Proof.
  destruct (empty_path_results posix (Some "") eq_refl)
    as (H1 & _ & _ & _ & H5 & _ & _ & _ & H9 & H10 & _).
  destruct (empty_path_results posix None eq_refl)
    as (_ & _ & _ & _ & N5 & _ & _ & _ & _ & _ & N11).
  repeat split; assumption.
Defined.

Lemma link_target_failsafe_witness :
  truthy (is_link posix (Some "/srv/odd")) = true
  /\ os_readlink posix "/srv/odd" = Raise UnicodeEncodeError
  /\ get_link_target posix (Some "/srv/odd") = Ok ""
  /\ exists v, is_broken_link posix (Some "/srv/odd") = Ok v
               /\ truthy v = false.
Proof.
  split; [reflexivity|]. split; [reflexivity|].
  apply (link_target_failsafe posix (Some "/srv/odd")).
  right. right. exists "/srv/odd". split; reflexivity.
Defined.



Lemma broken_link_type_witness :
  holds (is_broken_link posix (Some "/srv/dangling")) = true
  /\ get_type posix (Some "/srv/dangling") true = Ok (PyStr "l")
  /\ get_type posix (Some "/srv/dangling") false = Ok (PyStr "link")
  /\ holds (is_special posix (Some "/srv/dangling")) = true.
Proof.
  split; [reflexivity|].
  exact (broken_link_type posix (Some "/srv/dangling") eq_refl).
Defined.

Lemma negative_results_witness :
  (truthy (loc_val (Some "")) = false
   /\ is_link posix (Some "") = PyStr ""
   /\ is_False (is_link posix (Some "")) = false
   /\ is_readable posix (Some "") = Ok PyNone)
  /\ (truthy (is_link posix (Some "/srv/fifo")) = false
      /\ is_broken_link posix (Some "/srv/fifo") = Ok PyNone)
  /\ (on_posix (filesystem false) = false
      /\ is_broken_link (filesystem false) (Some "/srv/dangling")
         = Ok PyNone).
Proof.
  split; [|split].
  - split; [reflexivity|].
    destruct (negative_results_not_False posix (Some "")) as [H _].
    destruct (H eq_refl) as (H1 & H2 & H3 & _).
    by repeat split.
  - split; [reflexivity|].
    destruct (negative_results_not_False posix (Some "/srv/fifo"))
      as (_ & H & _).
    exact (H (or_introl eq_refl)).
  - split; [reflexivity|].
    destruct (negative_results_not_False (filesystem false)
                (Some "/srv/dangling")) as (_ & H & _).
    exact (H (or_intror eq_refl)).
Defined.

End DemoFacts.

(** * Further properties of the module *)

(** ** The classifier *)

Section ClassifierMore.

Variable os : OS.

Lemma is_file_follow_value (location : option string) :
  is_file os location true
  = Ok (loc_and location id (fun p => PyBool (isfile os p))).
Proof. reflexivity. Qed.

Lemma is_dir_follow_value (location : option string) :
  is_dir os location true
  = Ok (loc_and location id (fun p => PyBool (isdir os p))).
Proof.
  unfold is_dir. rewrite is_file_value.
  destruct location as [p|]; [|done]. cbn [loc_and].
  destruct (str_truthy p) eqn:Hp; [|done].
  destruct (isdir os p) eqn:Hd; [|done].
  by rewrite (isdir_not_isfile _ _ Hd).
Qed.

Lemma is_readable_value (p : string) :
  str_truthy p = true ->
  is_readable os (Some p)
  = access os p
      (if holds (is_dir os (Some p) false) then Z.lor R_OK X_OK else R_OK).
Proof.
  intros Hp. unfold is_readable. cbn [loc_val truthy]. rewrite Hp.
  destruct (is_dir os (Some p) false) as [d|] eqn:E;
    [|by rewrite is_dir_value in E].
  cbn. by destruct (truthy d).
Qed.

Lemma is_writable_value (p : string) :
  str_truthy p = true ->
  is_writable os (Some p)
  = access os p
      (if holds (is_dir os (Some p) false)
       then Z.lor (Z.lor R_OK W_OK) X_OK else Z.lor R_OK W_OK).
Proof.
  intros Hp. unfold is_writable. cbn [loc_val truthy]. rewrite Hp.
  destruct (is_dir os (Some p) false) as [d|] eqn:E;
    [|by rewrite is_dir_value in E].
  cbn. by destruct (truthy d).
Qed.

Lemma is_executable_value (p : string) :
  str_truthy p = true ->
  is_executable os (Some p)
  = access os p
      (if holds (is_dir os (Some p) false)
       then Z.lor (Z.lor R_OK W_OK) X_OK else X_OK).
Proof.
  intros Hp. unfold is_executable. cbn [loc_val truthy]. rewrite Hp.
  destruct (is_dir os (Some p) false) as [d|] eqn:E;
    [|by rewrite is_dir_value in E].
  cbn. by destruct (truthy d).
Qed.

Lemma access_refused (p : string) (mode : Z) :
  has_nul p = true -> access os p mode = Raise ValueError.
Proof. intros H. unfold access. by rewrite H. Qed.

Lemma has_nul_truthy (p : string) : has_nul p = true -> str_truthy p = true.
Proof. by destruct p. Qed.

(** The conjunction of [is_rwx] on three answers of the platform. *)
Lemma py_and_bools (a b c : bool) :
  py_and (py_and (Ok (PyBool a)) (Ok (PyBool b))) (Ok (PyBool c))
  = Ok (PyBool (a && b && c)).
Proof. by destruct a, b, c. Qed.

(** X1: the classification predicates and [get_type] return normally on
    every location and every state of the platform, also one whose
    [os.readlink] fails or a path that holds a null character: none of them
    reaches [os.readlink], and [os.path] answers [False] where [os.stat]
    refuses the path.  The permission checks return normally on every
    location that holds no null character. *)
Theorem classification_never_raises (location : option string)
    (follow_symlinks short : bool) :
  (exists v, is_file os location follow_symlinks = Ok v)
  /\ (exists v, is_dir os location follow_symlinks = Ok v)
  /\ (exists v, is_regular os location = Ok v)
  /\ (exists v, is_special os location = Ok v)
  /\ (exists v, get_type os location short = Ok v)
  /\ ((forall p, location = Some p -> has_nul p = false) ->
        (exists v, is_readable os location = Ok v)
        /\ (exists v, is_writable os location = Ok v)
        /\ (exists v, is_executable os location = Ok v)
        /\ (exists v, is_rwx os location = Ok v)).
Proof.
  split; [|split; [|split; [|split; [|split]]]].
  - destruct follow_symlinks; [rewrite is_file_follow_value|
                               rewrite is_file_value]; by eexists.
  - destruct follow_symlinks; [rewrite is_dir_follow_value|
                               rewrite is_dir_value]; by eexists.
  - rewrite is_regular_value. by eexists.
  - rewrite is_special_value. by eexists.
  - destruct location as [p|]; [|by eexists].
    destruct (str_truthy p) eqn:Hp.
    + rewrite get_type_value by done. by eexists.
    + unfold get_type. cbn. rewrite Hp. by eexists.
  - intros Hn. unfold is_rwx.
    destruct location as [p|]; [|by repeat split; eexists].
    destruct (str_truthy p) eqn:Hp.
    + rewrite is_readable_value, is_writable_value, is_executable_value
        by done.
      rewrite !(access_value os) by by apply Hn.
      rewrite py_and_bools. by repeat split; eexists.
    + unfold is_readable, is_writable, is_executable. cbn. rewrite Hp.
      by repeat split; eexists.
Qed.

(** X2: without following links a path is a file (a directory) exactly
    when it is one with links followed and is not itself a link; the test
    for a broken link in [is_file] and [is_dir] changes nothing. *)
Theorem follow_symlinks_relation (location : option string) :
  holds (is_file os location false)
  = holds (is_file os location true) && negb (truthy (is_link os location))
  /\ holds (is_dir os location false)
     = holds (is_dir os location true) && negb (truthy (is_link os location)).
Proof.
  rewrite is_file_value, is_dir_value, is_file_follow_value,
    is_dir_follow_value.
  unfold is_link.
  destruct location as [[|c s]|]; done.
Qed.

(** X3: no path is both a file and a directory, whether links are followed
    in either test or not. *)
Theorem file_and_dir_exclusive (location : option string)
    (follow_file follow_dir : bool) :
  holds (is_file os location follow_file) = true ->
  holds (is_dir os location follow_dir) = false.
Proof.
  intros Hf.
  destruct location as [p|]; [|destruct follow_dir; reflexivity].
  assert (Hi : isfile os p = true).
  { destruct follow_file.
    - rewrite is_file_follow_value in Hf. by destruct p.
    - rewrite holds_is_file in Hf.
      by apply andb_true_iff in Hf as [_ [? _]%andb_true_iff]. }
  assert (Hd : isdir os p = false).
  { destruct (isdir os p) eqn:Hd; [|done].
    by rewrite (isdir_not_isfile _ _ Hd) in Hi. }
  destruct follow_dir.
  - rewrite is_dir_follow_value. cbn. rewrite Hd. by destruct p.
  - by rewrite holds_is_dir, Hd, andb_false_r.
Qed.

(** X4: on a non-empty path the short code of [get_type] tells which
    predicate accepted the path: "l" exactly for a link, "f" exactly for a
    file, "d" exactly for a directory, and "s" exactly when the path is
    special and not a link. *)
Theorem get_type_agrees (p : string) :
  str_truthy p = true ->
  (get_type os (Some p) true = Ok (PyStr "l")
     <-> truthy (is_link os (Some p)) = true)
  /\ (get_type os (Some p) true = Ok (PyStr "f")
        <-> holds (is_file os (Some p) false) = true)
  /\ (get_type os (Some p) true = Ok (PyStr "d")
        <-> holds (is_dir os (Some p) false) = true)
  /\ (get_type os (Some p) true = Ok (PyStr "s")
        <-> truthy (is_link os (Some p)) = false
            /\ holds (is_special os (Some p)) = true).
Proof.
  intros Hp. rewrite get_type_value by done.
  rewrite holds_is_special, holds_is_file, holds_is_dir, Hp.
  unfold is_link. cbn [loc_and]. rewrite Hp. cbn [truthy andb].
  pose proof (isdir_not_isfile os p) as Hx.
  destruct (islink os p), (isfile os p), (isdir os p); cbn;
    repeat split; try done; try (intros [? ?]; done);
    by specialize (Hx eq_refl).
Qed.

(** X5: the short and the long answer of [get_type] name the same entry
    of [TYPES], or both are [None]. *)
Theorem get_type_short_long (location : option string) :
  (get_type os location true = Ok PyNone
   /\ get_type os location false = Ok PyNone)
  \/ exists type_checker short_form long_form,
       In (type_checker, (short_form, long_form)) (TYPES os)
       /\ get_type os location true = Ok (PyStr short_form)
       /\ get_type os location false = Ok (PyStr long_form).
Proof.
  destruct location as [p|]; [|by left].
  destruct (str_truthy p) eqn:Hp;
    [|left; unfold get_type; cbn; by rewrite Hp].
  right. rewrite !get_type_value by done. unfold TYPES.
  destruct (islink os p);
    [by eexists _, _, _; split; [left|]|].
  destruct (holds (is_file os (Some p) false));
    [by eexists _, _, _; split; [right; left|]|].
  destruct (holds (is_dir os (Some p) false));
    [by eexists _, _, _; split; [right; right; left|]|].
  by eexists _, _, _; split; [right; right; right; left|].
Qed.

(** X6: [is_broken_link] holds exactly for a link, on a platform with
    links, whose target reads back as a non-empty string and names, from
    the directory of the link, a path that does not exist. *)
Theorem broken_link_iff (location : option string) :
  holds (is_broken_link os location) = true
  <-> exists p target,
        location = Some p
        /\ on_posix os = true
        /\ str_truthy p = true
        /\ islink os p = true
        /\ os_readlink os p = Ok target
        /\ str_truthy target = true
        /\ exists_ os (path_join os (path_dirname os p) target) = false.
Proof.
  unfold is_broken_link, get_link_target, is_link.
  split.
  - destruct location as [p|]; cbn; [|by rewrite andb_false_r].
    destruct (on_posix os); [|done]. cbn.
    destruct (str_truthy p) eqn:Hp; [|by destruct p].
    cbn. destruct (islink os p) eqn:Hl; [|done].
    destruct (os_readlink os p) as [target|[]] eqn:Hr; try done. cbn.
    destruct (str_truthy target) eqn:Ht; [|by destruct target]. cbn.
    destruct (exists_ os _) eqn:He; [done|].
    intros _. by exists p, target.
  - intros (p & target & -> & Hx & Hp & Hl & Hr & Ht & He).
    cbn. rewrite Hx, Hp. cbn. rewrite Hl, Hr. cbn. by rewrite Ht, He.
Qed.

(** X7: for a link on a platform with links, [get_link_target] hands back
    what [os.readlink] returns, and an error of [os.readlink] other than
    [UnicodeEncodeError] comes out of [get_link_target] and of
    [is_broken_link] unchanged. *)
Theorem readlink_outcomes (p : string) :
  on_posix os = true ->
  truthy (is_link os (Some p)) = true ->
  (forall target,
     os_readlink os p = Ok target ->
     get_link_target os (Some p) = Ok target)
  /\ (forall e,
        os_readlink os p = Raise e ->
        e <> UnicodeEncodeError ->
        get_link_target os (Some p) = Raise e
        /\ is_broken_link os (Some p) = Raise e).
Proof.
  intros Hx Hl.
  unfold is_broken_link, get_link_target. rewrite Hx, Hl. cbn.
  split.
  - by intros target ->.
  - intros e -> He. by destruct e.
Qed.

(** X8: on a non-empty path [is_readable] is the answer of [os.access]
    to read and execute permission together for a directory and to read
    permission alone for anything else.  On a path without a null character
    that answer is the one of the platform, and each of the four permission
    checks answers [True] or [False]; on a path with a null character
    [os.access] refuses the path and each of the four raises
    [ValueError]. *)
Theorem permission_results (p : string) :
  str_truthy p = true ->
  is_readable os (Some p)
  = access os p
      (if holds (is_dir os (Some p) false) then Z.lor R_OK X_OK else R_OK)
  /\ (has_nul p = false ->
        is_readable os (Some p)
        = Ok (PyBool (os_access os p
                (if holds (is_dir os (Some p) false)
                 then Z.lor R_OK X_OK else R_OK)))
        /\ (exists b, is_writable os (Some p) = Ok (PyBool b))
        /\ (exists b, is_executable os (Some p) = Ok (PyBool b))
        /\ (exists b, is_rwx os (Some p) = Ok (PyBool b)))
  /\ (has_nul p = true ->
        is_readable os (Some p) = Raise ValueError
        /\ is_writable os (Some p) = Raise ValueError
        /\ is_executable os (Some p) = Raise ValueError
        /\ is_rwx os (Some p) = Raise ValueError).
Proof.
  intros Hp. unfold is_rwx.
  rewrite is_readable_value, is_writable_value, is_executable_value by done.
  split; [done|]. split; intros Hn.
  - rewrite !(access_value os) by done. rewrite py_and_bools.
    by repeat split; eexists.
  - by rewrite !access_refused by done.
Qed.

(** X9: [is_rwx] holds for a directory exactly when the platform grants
    read with execute, and read with write and execute; for a non-empty
    path that is no directory exactly when it grants read, read with
    write, and execute. *)
Theorem is_rwx_access (p : string) :
  str_truthy p = true ->
  holds (is_rwx os (Some p))
  = if holds (is_dir os (Some p) false)
    then granted os p (Z.lor R_OK X_OK)
         && granted os p (Z.lor (Z.lor R_OK W_OK) X_OK)
    else granted os p R_OK
         && granted os p (Z.lor R_OK W_OK)
         && granted os p X_OK.
Proof.
  intros Hp. unfold is_rwx, granted.
  rewrite is_readable_value, is_writable_value, is_executable_value by done.
  generalize (holds (is_dir os (Some p) false)). intros d.
  destruct (has_nul p) eqn:Hn.
  - rewrite !access_refused by done. by destruct d.
  - rewrite !(access_value os) by done. rewrite py_and_bools.
    cbn [holds truthy]. destruct d; [|done].
    by destruct (os_access os p (Z.lor R_OK X_OK)), (os_access os p _).
Qed.

End ClassifierMore.

(** ** The aggregator *)

Section AggregatorMore.

Variable os : OS.

Lemma link_not_regular (location : option string) :
  truthy (is_link os location) = true ->
  holds (is_file os location false) = false
  /\ holds (is_dir os location false) = false.
Proof.
  destruct location as [p|]; [|done].
  rewrite holds_is_file, holds_is_dir. unfold is_link. cbn.
  destruct (str_truthy p); [|by destruct p]. cbn.
  intros ->. by rewrite !andb_false_r.
Qed.

Lemma counting_functions_unknown (key : string) :
  key <> "file_count" -> key <> "file_size" ->
  counting_functions os key = None.
Proof.
  intros H1 H2. unfold counting_functions.
  apply String.eqb_neq in H1, H2. by rewrite H1, H2.
Qed.

Lemma sum_gen_grows (call : string -> M Z) (names : list string) :
  (forall name (memos memos' : memos_t) r,
     call name memos = Some (r, memos') -> memos ⊆ memos') ->
  forall acc (memos memos' : memos_t) r,
    sum_gen call names acc memos = Some (r, memos') -> memos ⊆ memos'.
Proof.
  intros Hcall.
  induction names as [|name rest IH]; intros acc memos memos' r H.
  - cbn in H. unfold m_ret in H. by inversion H.
  - cbn in H. unfold m_bind in H.
    destruct (call name memos) as [[[v|e] memos1]|] eqn:E; [| |done].
    + etrans; [by eapply Hcall|by eapply IH].
    + inversion H; subst. by eapply Hcall.
Qed.

Lemma counter_body_grows (c : option string -> string -> M Z)
    (location : option string) (key : string) :
  (forall l k (memos memos' : memos_t) r,
     c l k memos = Some (r, memos') -> memos ⊆ memos') ->
  forall (memos memos' : memos_t) r,
    counter_body os c location key memos = Some (r, memos') ->
    memos ⊆ memos'.
Proof.
  intros Hc memos memos' r.
  unfold counter_body, m_bind, m_lift, m_ret.
  rewrite is_file_value, is_dir_value. cbn [py_or py_not mbind res_bind].
  repeat (case_match; simplify_eq; try done);
    intros; simplify_eq; try done;
    eapply sum_gen_grows; try eassumption;
    intros name m1 m2 r0; apply Hc.
Qed.

Lemma counter_grows (fuel : nat) :
  forall location (key : string) (memos memos' : memos_t) r,
    counter os fuel location key memos = Some (r, memos') ->
    memos ⊆ memos'.
Proof.
  induction fuel as [|n IH]; intros location key memos memos' r H; [done|].
  rewrite counter_unfold in H. unfold memoize in H.
  destruct (memos !! (location, key)) as [v|] eqn:Hhit;
    [by inversion H|].
  destruct (counter_body os (counter os n) location key memos)
    as [[[v|e] memos1]|] eqn:E; [| |done]; inversion H; subst.
  - apply map_subseteq_spec. intros k x Hk.
    destruct (decide (k = (location, key))) as [->|Hne]; [congruence|].
    rewrite lookup_insert_ne by done.
    eapply (lookup_weaken memos); [done|].
    by eapply counter_body_grows.
  - by eapply counter_body_grows.
Qed.

Lemma sum_gen_frame (call : string -> M Z) (names : list string)
    (key : option string * string) :
  (forall name (memos memos' : memos_t) r,
     call name memos = Some (r, memos') -> memos' !! key = memos !! key) ->
  forall acc (memos memos' : memos_t) r,
    sum_gen call names acc memos = Some (r, memos') ->
    memos' !! key = memos !! key.
Proof.
  intros Hcall.
  induction names as [|name rest IH]; intros acc memos memos' r H.
  - cbn in H. unfold m_ret in H. by inversion H.
  - cbn in H. unfold m_bind in H.
    destruct (call name memos) as [[[v|e] memos1]|] eqn:E; [| |done].
    + etrans; [by eapply IH|by eapply Hcall].
    + inversion H; subst. by eapply Hcall.
Qed.

Lemma counter_body_frame (c : option string -> string -> M Z)
    (location : option string) (counting_function : string)
    (key : option string * string) :
  (forall l (memos memos' : memos_t) r,
     c l counting_function memos = Some (r, memos') ->
     memos' !! key = memos !! key) ->
  forall (memos memos' : memos_t) r,
    counter_body os c location counting_function memos = Some (r, memos') ->
    memos' !! key = memos !! key.
Proof.
  intros Hc memos memos' r.
  unfold counter_body, m_bind, m_lift, m_ret.
  rewrite is_file_value, is_dir_value. cbn [py_or py_not mbind res_bind].
  repeat (case_match; simplify_eq; try done);
    intros; simplify_eq; try done;
    eapply sum_gen_frame; try eassumption;
    intros name m1 m2 r0; apply Hc.
Qed.

Lemma counter_frame (fuel : nat) (counting_function : string)
    (key : option string * string) :
  key.2 <> counting_function ->
  forall location (memos memos' : memos_t) r,
    counter os fuel location counting_function memos = Some (r, memos') ->
    memos' !! key = memos !! key.
Proof.
  intros Hkey.
  induction fuel as [|n IH]; intros location memos memos' r H; [done|].
  rewrite counter_unfold in H. unfold memoize in H.
  destruct (memos !! (location, counting_function)) as [v|] eqn:Hhit;
    [by inversion H|].
  destruct (counter_body os (counter os n) location counting_function memos)
    as [[[v|e] memos1]|] eqn:E; [| |done]; inversion H; subst.
  - rewrite lookup_insert_ne by (intros <-; by apply Hkey).
    by eapply counter_body_frame.
  - by eapply counter_body_frame.
Qed.

Lemma total_ones (vs : list Z) :
  Forall (fun v => v = 1) vs -> total vs = Z.of_nat (length vs).
Proof.
  induction 1 as [|v vs -> _ IH]; [done|].
  cbn [total foldr length] in *. unfold total in IH. lia.
Qed.

Lemma file_count_nonneg (location : option string) (n : nat) :
  walkable os location n ->
  forall v, aggregate os FileCount location v -> 0 <= v.
Proof.
  induction 1 as [location n Hd | p names n Hd Hls Hkids IH]; intros v Ha.
  - inversion Ha as [? ? _ Hc| |]; subst; [|congruence|lia].
    cbn in Hc. inversion Hc. lia.
  - inversion Ha as [? ? Hf | ? names1 vs _ Hls1 HF | ? Hf Hd1]; subst;
      [apply holds_file_not_dir in Hf; congruence | | lia].
    assert (names1 = names) by congruence. subst.
    clear Ha Hls Hls1 Hkids.
    induction HF as [|name v names vs Hv _ IHF]; [done|].
    cbn [total foldr].
    assert (0 <= v) by (eapply IH; [by left|done]).
    assert (0 <= total vs)
      by (apply IHF; intros name' Hin; apply IH; by right).
    unfold total in *. lia.
Qed.

(** X10: a symbolic link counts for no file and no byte, whatever it leads
    to: from every cache that agrees with the filesystem and with any
    fuel, both metrics return 0 for it. *)
Theorem link_counts_zero (location : option string) (m : Metric)
    (fuel : nat) :
  truthy (is_link os location) = true ->
  returns os (S fuel) location m 0.
Proof.
  intros Hl memos Hv.
  destruct (link_not_regular _ Hl) as [Hf Hd].
  destruct (counter_sound os m location fuel (walkable_leaf os _ _ Hd)
              memos Hv) as (v & memos' & Hc & Ha & Hv').
  exists memos'. split; [|done].
  inversion Ha; subst; congruence.
Qed.

(** X11: a call of the aggregator, whether it returns or raises, leaves
    every entry of the cache as it was; the cache only grows. *)
Theorem cache_only_grows (fuel : nat) (location : option string)
    (counting_function : string) (memos memos' : memos_t) (r : res Z) :
  counter os fuel location counting_function memos = Some (r, memos') ->
  forall key v, memos !! key = Some v -> memos' !! key = Some v.
Proof.
  intros H key v Hk.
  eapply (lookup_weaken memos); [done|].
  by eapply counter_grows.
Qed.

(** X12: with a counting function that is not in the registry, an uncached
    call raises [KeyError] on a plain file and stores nothing, but returns
    0 on a path that is neither file nor directory, where the registry is
    not consulted, and stores that 0. *)
Theorem unknown_counting_function (fuel : nat) (location : option string)
    (counting_function : string) (memos : memos_t) :
  counting_function <> "file_count" ->
  counting_function <> "file_size" ->
  memos !! (location, counting_function) = None ->
  (holds (is_file os location false) = true ->
     counter os (S fuel) location counting_function memos
     = Some (Raise KeyError, memos))
  /\ (holds (is_file os location false) = false ->
      holds (is_dir os location false) = false ->
      counter os (S fuel) location counting_function memos
      = Some (Ok 0, <[(location, counting_function) := 0]> memos)).
Proof.
  intros H1 H2 Hmiss. rewrite counter_unfold. unfold memoize. rewrite Hmiss.
  split.
  - intros Hf. rewrite counter_body_file by done.
    by rewrite counting_functions_unknown.
  - intros Hf Hd. by rewrite counter_body_other.
Qed.

(** X13: when the listing of a directory fails, an uncached call of the
    aggregator on it raises the error of [os.scandir] and leaves the cache
    as it was. *)
Theorem scandir_error_propagates (fuel : nat) (p : string)
    (counting_function : string) (memos : memos_t) (e : exn) :
  holds (is_dir os (Some p) false) = true ->
  os_scandir os p = Raise e ->
  memos !! (Some p, counting_function) = None ->
  counter os (S fuel) (Some p) counting_function memos
  = Some (Raise e, memos).
Proof.
  intros Hd Hls Hmiss. rewrite counter_unfold. unfold memoize.
  by rewrite Hmiss, counter_body_dir, Hls.
Qed.

(** X14: for a directory whose entries are all plain files, the file count
    is the number of entries and the size is the sum of the sizes
    [os.stat] reports for them. *)
Theorem flat_directory (p : string) (names : list string) (fuel : nat) :
  holds (is_dir os (Some p) false) = true ->
  os_scandir os p = Ok names ->
  (forall name, In name names ->
     holds (is_file os (Some (path_join os p name)) false) = true) ->
  (1 < fuel)%nat ->
  returns os fuel (Some p) FileCount (Z.of_nat (length names))
  /\ exists sizes,
       Forall2 (fun name size =>
                  st_size <$> os_stat os (path_join os p name) = Some size)
               names sizes
       /\ returns os fuel (Some p) FileSize (total sizes).
Proof.
  intros Hd Hls Hfiles Hfuel.
  assert (Hw : walkable os (Some p) 1).
  { eapply walkable_dir; [done..|].
    intros name Hin. apply walkable_leaf.
    by apply holds_file_not_dir, Hfiles. }
  assert (Hkids : forall m vs,
            Forall2 (fun name v =>
              aggregate os m (Some (path_join os p name)) v) names vs ->
            Forall2 (fun name v =>
              contribution os m (path_join os p name) = Ok v) names vs).
  { intros m vs HF.
    eapply Forall2_impl_In; [|exact HF].
    intros name v Hin Ha. cbn beta in Ha.
    pose proof (Hfiles name Hin) as Hf.
    pose proof (holds_file_not_dir _ _ Hf) as Hnd.
    inversion Ha; subst; [done|congruence..]. }
  split.
  - destruct (counter_returns os FileCount _ _ Hw) as (v & Ha & Hret).
    inversion Ha as [? ? Hf | ? names1 vs _ Hls1 HF | ? Hf Hd1]; subst;
      [apply holds_file_not_dir in Hf; congruence | | congruence].
    assert (names1 = names) by congruence. subst.
    specialize (Hkids FileCount vs HF).
    assert (Hones : Forall (fun v => v = 1) vs).
    { clear -Hkids. induction Hkids as [|name v names vs Hv _ IH];
        constructor; [|done]. cbn in Hv. by inversion Hv. }
    rewrite (total_ones _ Hones) in Hret.
    rewrite (Forall2_length _ _ _ HF). by apply Hret.
  - destruct (counter_returns os FileSize _ _ Hw) as (v & Ha & Hret).
    inversion Ha as [? ? Hf | ? names1 vs _ Hls1 HF | ? Hf Hd1]; subst;
      [apply holds_file_not_dir in Hf; congruence | | congruence].
    assert (names1 = names) by congruence. subst.
    specialize (Hkids FileSize vs HF).
    exists vs. split; [|by apply Hret].
    eapply Forall2_impl; [exact Hkids|].
    intros name v Hc. cbn in Hc. unfold getsize, stat in Hc.
    destruct (has_nul _); [done|].
    destruct (os_stat os _); by inversion Hc.
Qed.

(** X15: the file count of a tree that can be walked is never negative,
    from whatever cache that agrees with the filesystem it is computed. *)
Theorem file_count_not_negative (location : option string) (n : nat)
    (memos memos' : memos_t) (v : Z) :
  walkable os location n ->
  cache_valid os memos ->
  get_file_count os (S n) location memos = Some (Ok v, memos') ->
  0 <= v.
Proof.
  intros Hw Hv Hc.
  destruct (counter_sound os FileCount _ _ Hw memos Hv)
    as (v' & memos1 & Hc' & Ha & _).
  unfold get_file_count in Hc. cbn [metric_key] in Hc'.
  rewrite Hc in Hc'. inversion Hc'; subst.
  by eapply file_count_nonneg.
Qed.

(** X16: a call of the aggregator for one counting function leaves the
    cache entries of every other counting function untouched: counting
    files never writes a size, and measuring sizes never writes a count. *)
Theorem metrics_do_not_interfere (fuel : nat) (location : option string)
    (counting_function : string) (memos memos' : memos_t) (r : res Z) :
  counter os fuel location counting_function memos = Some (r, memos') ->
  forall other_location other_function,
    other_function <> counting_function ->
    memos' !! (other_location, other_function)
    = memos !! (other_location, other_function).
Proof.
  intros H l k Hk.
  by eapply (counter_frame fuel counting_function (l, k)).
Qed.

End AggregatorMore.

(** ** The last-modified date *)

Module DateMore.
Import Datetime DatetimeSpec DatetimeFacts.

Lemma digit_inj (a b : Z) :
  0 <= a <= 9 -> 0 <= b <= 9 -> digit a = digit b -> a = b.
Proof.
  intros Ha Hb H. unfold digit in H.
  apply (f_equal nat_of_ascii) in H.
  rewrite !nat_ascii_embedding in H by lia. lia.
Qed.

Lemma fmt02_inj (a b : Z) (k k' : string) :
  0 <= a < 100 -> 0 <= b < 100 ->
  fmt02 a k = fmt02 b k' -> a = b /\ k = k'.
Proof.
  intros Ha Hb H. unfold fmt02 in H. inversion H as [[H1 H2 H3]].
  apply digit_inj in H1; [|Z.div_mod_to_equations; lia..].
  apply digit_inj in H2; [|Z.div_mod_to_equations; lia..].
  split; [|done]. Z.div_mod_to_equations. lia.
Qed.

Lemma fmt04_inj (a b : Z) (k k' : string) :
  0 <= a < 10000 -> 0 <= b < 10000 ->
  fmt04 a k = fmt04 b k' -> a = b /\ k = k'.
Proof.
  intros Ha Hb H. unfold fmt04 in H.
  apply fmt02_inj in H as [H1 H2]; [|Z.div_mod_to_equations; lia..].
  apply fmt02_inj in H2 as [H2 H3]; [|Z.div_mod_to_equations; lia..].
  split; [|done]. Z.div_mod_to_equations. lia.
Qed.

Lemma string_tail_inj (c : ascii) (s s' : string) :
  String c s = String c s' -> s = s'.
Proof. by intros [= ->]. Qed.

(** Two dates of the calendar print alike only if they are the same. *)
Lemma date_string_inj (y m d y' m' d' : Z) :
  MINYEAR <= y <= MAXYEAR -> 1 <= m <= 12 -> 1 <= d <= 31 ->
  MINYEAR <= y' <= MAXYEAR -> 1 <= m' <= 12 -> 1 <= d' <= 31 ->
  date_string y m d = date_string y' m' d' ->
  (y, m, d) = (y', m', d').
Proof.
  unfold MINYEAR, MAXYEAR, date_string. intros Hy Hm Hd Hy' Hm' Hd' H.
  apply fmt04_inj in H as [-> H]; [|lia..].
  apply string_tail_inj in H.
  apply fmt02_inj in H as [-> H]; [|lia..].
  apply string_tail_inj in H.
  apply fmt02_inj in H as [-> _]; [|lia..].
  done.
Qed.

(** Two days with the same date are the same day. *)
Lemma ord2ymd_inj (n n' : Z) : _ord2ymd n = _ord2ymd n' -> n = n'.
Proof.
  intros H.
  pose proof (ord2ymd_ymd2ord n) as H1.
  pose proof (ord2ymd_ymd2ord n') as H2.
  rewrite H in H1. destruct (_ord2ymd n') as [[y m] d].
  destruct H1 as [<- _]. by destruct H2 as [<- _].
Qed.

End DateMore.

Section LastModifiedMore.

Variable os : OS.

Lemma last_modified_of_file (p : string) (st : stat_result) (s : string) :
  os_stat os p = Some st ->
  holds (is_file os (Some p) false) = true ->
  get_last_modified_date os (Some p) = Ok (PyStr s) ->
  exists y m d,
    DatetimeSpec.utc_date (DatetimeSpec.rounded_us (st_mtime st)) = (y, m, d)
    /\ Datetime.MINYEAR <= y <= Datetime.MAXYEAR
    /\ 1 <= m <= 12 /\ 1 <= d <= 31
    /\ s = DatetimeSpec.date_string y m d.
Proof.
  intros Hs Hf H. unfold get_last_modified_date in H.
  pose proof (holds_is_file_no_nul os _ Hf) as Hn.
  destruct (is_file os (Some p) false) as [f|]; [|done].
  cbn in Hf. cbn [mbind res_bind] in H. rewrite Hf in H.
  cbn [with_str] in H. unfold getmtime, stat in H. rewrite Hn, Hs in H.
  cbn [mbind res_bind] in H.
  destruct (Datetime.fromtimestamp_utc (st_mtime st)) as [dt|] eqn:E;
    [|done].
  cbn [mbind res_bind] in H. rewrite DatetimeFacts.isoformat_date in H.
  inversion H; subst.
  destruct (DatetimeFacts.fromtimestamp_utc_range _ _ E) as [Hd Hy].
  destruct (DatetimeFacts.utc_date_calendar _ _ _ _ Hd) as (_ & Hm & Hday).
  pose proof (DatetimeFacts.days_in_month_bound (Datetime.year dt) _ Hm).
  eexists _, _, _. repeat split; try done; lia.
Qed.


End LastModifiedMore.

(** ** The further properties on the example filesystem *)

Module DemoMore.
Import Demo DemoFailing.

Example link_followed_is_file :
  holds (is_file posix (Some "/srv/link") true) = true
  /\ holds (is_file posix (Some "/srv/link") false) = false.
Proof. split; reflexivity. Qed.

Lemma file_and_dir_exclusive_witness :
  holds (is_file posix (Some "/srv/link") true) = true
  /\ holds (is_dir posix (Some "/srv/link") false) = false.
Proof.
  split; [reflexivity|].
  exact (file_and_dir_exclusive posix (Some "/srv/link") true false eq_refl).
Defined.

Lemma get_type_agrees_witness :
  str_truthy "/srv/link" = true
  /\ truthy (is_link posix (Some "/srv/link")) = true
  /\ get_type posix (Some "/srv/link") true = Ok (PyStr "l").
Proof.
  split; [reflexivity|]. split; [reflexivity|].
  destruct (get_type_agrees posix "/srv/link" eq_refl) as (Hl & _).
  exact (proj2 Hl eq_refl).
Defined.

Lemma broken_link_iff_witness :
  holds (is_broken_link posix (Some "/srv/dangling")) = true
  /\ exists p target,
       Some "/srv/dangling" = Some p
       /\ on_posix posix = true
       /\ str_truthy p = true
       /\ islink posix p = true
       /\ os_readlink posix p = Ok target
       /\ str_truthy target = true
       /\ exists_ posix (path_join posix (path_dirname posix p) target)
          = false.
Proof.
  split; [reflexivity|].
  exact (proj1 (broken_link_iff posix (Some "/srv/dangling")) eq_refl).
Defined.

Lemma readlink_outcomes_witness :
  (on_posix posix = true
   /\ truthy (is_link posix (Some "/srv/link")) = true
   /\ get_link_target posix (Some "/srv/link") = Ok "root/a.txt")
  /\ (on_posix unreadable_links = true
      /\ truthy (is_link unreadable_links (Some "/srv/link")) = true
      /\ os_readlink unreadable_links "/srv/link" = Raise OSError
      /\ get_link_target unreadable_links (Some "/srv/link") = Raise OSError
      /\ is_broken_link unreadable_links (Some "/srv/link")
         = Raise OSError).
Proof.
  split.
  - split; [reflexivity|]. split; [reflexivity|].
    destruct (readlink_outcomes posix "/srv/link" eq_refl eq_refl)
      as [H _].
    exact (H "root/a.txt" eq_refl).
  - split; [reflexivity|]. split; [reflexivity|]. split; [reflexivity|].
    destruct (readlink_outcomes unreadable_links "/srv/link" eq_refl eq_refl)
      as [_ H].
    apply (H OSError eq_refl). discriminate.
Defined.

(** A path with a null character: [os.path] answers [False], [os.access]
    raises. *)
Example null_path_results :
  is_link posix (Some null_path) = PyBool false
  /\ is_file posix (Some null_path) true = Ok (PyBool false)
  /\ is_dir posix (Some null_path) false = Ok (PyBool false)
  /\ is_special posix (Some null_path) = Ok (PyBool true)
  /\ get_type posix (Some null_path) true = Ok (PyStr "s")
  /\ is_broken_link posix (Some null_path) = Ok PyNone
  /\ is_executable posix (Some null_path) = Raise ValueError
  /\ get_last_modified_date posix (Some null_path) = Ok (PyStr "")
  /\ fst <$> get_size posix 1 (Some null_path) ∅ = Some (Ok 0).
Proof. repeat split; vm_compute; reflexivity. Qed.

Lemma classification_never_raises_witness :
  (exists v, get_type posix (Some null_path) true = Ok v)
  /\ (exists v, is_special unreadable_links (Some "/srv/link") = Ok v)
  /\ (exists v, is_rwx posix (Some "/srv/rx") = Ok v).
Proof.
  split; [|split].
  - exact (proj1 (proj2 (proj2 (proj2 (proj2
             (classification_never_raises posix (Some null_path)
                false true)))))).
  - exact (proj1 (proj2 (proj2 (proj2
             (classification_never_raises unreadable_links
                (Some "/srv/link") false true))))).
  - destruct (classification_never_raises posix (Some "/srv/rx") false true)
      as (_ & _ & _ & _ & _ & H).
    refine (proj2 (proj2 (proj2 (H _)))).
    intros p [= <-]. reflexivity.
Defined.

Lemma permission_results_witness :
  (str_truthy "/srv/rx" = true
   /\ has_nul "/srv/rx" = false
   /\ is_readable posix (Some "/srv/rx") = Ok (PyBool true)
   /\ (exists b, is_rwx posix (Some "/srv/rx") = Ok (PyBool b)))
  /\ (str_truthy null_path = true
      /\ has_nul null_path = true
      /\ is_readable posix (Some null_path) = Raise ValueError
      /\ is_rwx posix (Some null_path) = Raise ValueError).
Proof.
  split.
  - split; [reflexivity|]. split; [reflexivity|].
    destruct (permission_results posix "/srv/rx" eq_refl) as (_ & H & _).
    destruct (H eq_refl) as (Hr & _ & _ & Hrwx).
    split; [exact Hr|exact Hrwx].
  - split; [reflexivity|]. split; [reflexivity|].
    destruct (permission_results posix null_path eq_refl) as (_ & _ & H).
    destruct (H eq_refl) as (Hr & _ & _ & Hrwx).
    split; [exact Hr|exact Hrwx].
Defined.

Lemma is_rwx_access_witness :
  str_truthy "/srv/rx" = true
  /\ holds (is_rwx posix (Some "/srv/rx"))
     = granted posix "/srv/rx" (Z.lor R_OK X_OK)
       && granted posix "/srv/rx" (Z.lor (Z.lor R_OK W_OK) X_OK).
Proof.
  split; [reflexivity|].
  exact (is_rwx_access posix "/srv/rx" eq_refl).
Defined.

Lemma link_counts_zero_witness :
  truthy (is_link posix (Some "/srv/link")) = true
  /\ getsize posix "/srv/link" = Ok 5
  /\ returns posix 1 (Some "/srv/link") FileSize 0
  /\ returns posix 1 (Some "/srv/link") FileCount 0.
Proof.
  split; [reflexivity|]. split; [reflexivity|].
  split.
  - exact (link_counts_zero posix (Some "/srv/link") FileSize 0 eq_refl).
  - exact (link_counts_zero posix (Some "/srv/link") FileCount 0 eq_refl).
Defined.

Lemma cache_only_grows_witness :
  exists r (memos' : memos_t),
    counter posix 3 (Some "/srv/root") "file_size"
      {[ (Some "/elsewhere", "file_size") := 7 ]}
    = Some (r, memos')
    /\ memos' !! (Some "/elsewhere", "file_size") = Some 7.
Proof.
  pose (run := counter posix 3 (Some "/srv/root") "file_size"
                 {[ (Some "/elsewhere", "file_size") := 7 ]}).
  assert (E : counter posix 3 (Some "/srv/root") "file_size"
                {[ (Some "/elsewhere", "file_size") := 7 ]} = run)
    by reflexivity.
  assert (H : fst <$> run = Some (Ok 8)) by (vm_compute; reflexivity).
  clearbody run. destruct run as [[r memos']|]; [clear H|discriminate H].
  exists r, memos'. split; [exact E|].
  apply (cache_only_grows posix _ _ _ _ _ _ E).
  apply lookup_singleton_eq.
Defined.

Lemma unknown_counting_function_witness :
  holds (is_file posix (Some "/srv/root/a.txt") false) = true
  /\ counter posix 1 (Some "/srv/root/a.txt") "bogus" ∅
     = Some (Raise KeyError, ∅)
  /\ counter posix 1 (Some "/srv/fifo") "bogus" ∅
     = Some (Ok 0, <[(Some "/srv/fifo", "bogus") := 0]> ∅).
Proof.
  split; [reflexivity|]. split.
  - destruct (unknown_counting_function posix 0 (Some "/srv/root/a.txt")
                "bogus" ∅) as [H _]; [discriminate..|reflexivity|].
    exact (H eq_refl).
  - destruct (unknown_counting_function posix 0 (Some "/srv/fifo")
                "bogus" ∅) as [_ H]; [discriminate..|reflexivity|].
    exact (H eq_refl eq_refl).
Defined.

Lemma scandir_error_propagates_witness :
  holds (is_dir unlistable (Some "/srv/root") false) = true
  /\ os_scandir unlistable "/srv/root" = Raise OSError
  /\ counter unlistable 1 (Some "/srv/root") "file_count" ∅
     = Some (Raise OSError, ∅).
Proof.
  split; [reflexivity|]. split; [reflexivity|].
  apply (scandir_error_propagates unlistable 0 "/srv/root" "file_count" ∅
           OSError); reflexivity.
Defined.

Lemma flat_directory_witness :
  os_scandir posix "/srv/root/sub" = Ok ["b.txt"]
  /\ returns posix 2 (Some "/srv/root/sub") FileCount 1
  /\ exists sizes,
       Forall2 (fun name size =>
                  st_size <$> os_stat posix
                                (path_join posix "/srv/root/sub" name)
                  = Some size)
               ["b.txt"] sizes
       /\ returns posix 2 (Some "/srv/root/sub") FileSize (total sizes).
Proof.
  split; [reflexivity|].
  apply (flat_directory posix "/srv/root/sub" ["b.txt"] 2);
    [reflexivity | reflexivity | | apply le_n].
  intros name [<-|[]]. reflexivity.
Defined.

Lemma file_count_not_negative_witness :
  exists v (memos' : memos_t),
    get_file_count posix 3 (Some "/srv/root") ∅ = Some (Ok v, memos')
    /\ 0 <= v.
Proof.
  assert (H : fst <$> get_file_count posix 3 (Some "/srv/root") ∅
              = Some (Ok 2)) by (vm_compute; reflexivity).
  destruct (get_file_count posix 3 (Some "/srv/root") ∅)
    as [[r memos']|] eqn:E; [|discriminate H].
  injection H as ->. exists 2, memos'. split; [reflexivity|].
  exact (file_count_not_negative posix _ _ _ _ _ DemoFacts.walkable_root
           (cache_valid_empty posix) E).
Defined.

Lemma metrics_do_not_interfere_witness :
  exists r (memos' : memos_t),
    counter posix 3 (Some "/srv/root") "file_size"
      {[ (Some "/srv/root", "file_count") := 2 ]}
    = Some (r, memos')
    /\ memos' !! (Some "/srv/root", "file_count") = Some 2
    /\ memos' !! (Some "/srv/root/a.txt", "file_count") = None.
Proof.
  pose (run := counter posix 3 (Some "/srv/root") "file_size"
                 {[ (Some "/srv/root", "file_count") := 2 ]}).
  assert (E : counter posix 3 (Some "/srv/root") "file_size"
                {[ (Some "/srv/root", "file_count") := 2 ]} = run)
    by reflexivity.
  assert (H : fst <$> run = Some (Ok 8)) by (vm_compute; reflexivity).
  clearbody run. destruct run as [[r memos']|]; [clear H|discriminate H].
  exists r, memos'. split; [exact E|].
  split.
  - rewrite (metrics_do_not_interfere posix _ _ _ _ _ _ E);
      [apply lookup_singleton_eq|discriminate].
  - rewrite (metrics_do_not_interfere posix _ _ _ _ _ _ E);
      [apply lookup_singleton_ne; discriminate|discriminate].
Defined.


End DemoMore.
